(** * A shallow embedding of the to-do backend (src/todo_backend/src/api/main.py)

    The service keeps one SQLite table, [tasks], and exposes five route
    handlers over it.  The table is modelled as the list of its rows together
    with the AUTOINCREMENT counter SQLite keeps for it; a connection is a
    committed image plus a working image; every handler is a computation over
    a connection that either returns a value or raises.

    Conventions.
    - A Python [str] is a [string]; its [len] is [String.length].
    - A timestamp is the instant it denotes, counted in microseconds since the
      epoch.  [datetime.isoformat()] of a UTC datetime with a zero microsecond
      field is a fixed-width text whose lexicographic order is the order of
      the instants, so equality and order of timestamps are those of [Z].
    - The wall clock is an input: each call that reads it receives the reading.
    - Failures of the storage engine itself (I/O errors, a locked file, an
      exhausted rowid space) are outside the model.  What sqlite3 does with a
      Python int that is no 64-bit integer is inside it. *)

From Stdlib Require Import ZArith List Ascii String Bool Lia Permutation Sorted.
Import ListNotations.
Open Scope Z_scope.

(** ** Time *)

Definition timestamp := Z.

(** [datetime.now(timezone.utc).replace(microsecond=0).isoformat()]: the clock
    reading with its microsecond field cleared. *)
Definition _utc_now_iso (clock : Z) : timestamp := clock - clock mod 1000000.

(** ** Outcomes of a call *)

Inductive exn : Type :=
| HTTPException (status_code : Z) (detail : string)
| RequestValidationError
| ValidationError
| AssertionError
| OverflowError.

Inductive outcome (A : Type) : Type :=
| Return (a : A)
| Raise (e : exn).
Arguments Return {A} a.
Arguments Raise {A} e.

(** ** The table *)

Module Row.
(** One row of [tasks]; [completed] is the INTEGER column. *)
Record t : Type := mk {
  id : Z;
  title : string;
  description : option string;
  completed : Z;
  created_at : timestamp;
  updated_at : timestamp
}.
End Row.

(** The database file once [tasks] exists: the rows, oldest insertion first,
    and the entry of [sqlite_sequence] for the table. *)
Record DB : Type := mkDB {
  tasks : list Row.t;
  sqlite_sequence : Z
}.

Definition empty_db : DB := {| tasks := []; sqlite_sequence := 0 |}.

(** CREATE TABLE IF NOT EXISTS: a file that already has the table keeps it. *)
Definition _init_db (file : option DB) : DB :=
  match file with
  | Some db => db
  | None => empty_db
  end.

Module Sql.

Definition has_id (i : Z) (r : Row.t) : bool := Row.id r =? i.

(** Largest rowid present, if any row is. *)
Fixpoint last_rowid (l : list Row.t) : option Z :=
  match l with
  | [] => None
  | r :: rest =>
      match last_rowid rest with
      | None => Some (Row.id r)
      | Some m => Some (Z.max (Row.id r) m)
      end
  end.

(** The rowid an INTEGER PRIMARY KEY AUTOINCREMENT column gives to a row
    inserted without one: one more than the largest rowid in the table (1 in
    an empty table), raised to one more than the recorded sequence value. *)
Definition new_rowid (db : DB) : Z :=
  let v := match last_rowid (tasks db) with
           | None => 1
           | Some k => k + 1
           end in
  if v <? sqlite_sequence db + 1 then sqlite_sequence db + 1 else v.

(** INSERT INTO tasks (title, description, completed, created_at,
    updated_at) VALUES (?, ?, ?, ?, ?); the result carries [lastrowid]. *)
Definition insert (ttl : string) (descr : option string) (done : Z)
    (created updated : timestamp) (db : DB) : Z * DB :=
  let i := new_rowid db in
  (i, {| tasks := tasks db ++ [Row.mk i ttl descr done created updated];
         sqlite_sequence := i |}).

(** The integers SQLite stores: signed, 64 bits.  Rowids are among them, and
    sqlite3 binds a Python int as a parameter only when it is one. *)
Definition fits_int64 (i : Z) : bool :=
  (-9223372036854775808 <=? i) && (i <=? 9223372036854775807).

(** The first row stored under rowid [i], if there is one. *)
Definition row_with_id (i : Z) (db : DB) : option Row.t :=
  find (has_id i) (tasks db).

(** SELECT * FROM tasks WHERE id = ?; with the Python int [i] for the
    parameter, followed by [fetchone()]: an [i] that is no 64-bit integer is
    the id of no row. *)
Definition select_by_id (i : Z) (db : DB) : option Row.t :=
  if fits_int64 i then row_with_id i db else None.

Fixpoint insert_desc (r : Row.t) (l : list Row.t) : list Row.t :=
  match l with
  | [] => [r]
  | x :: rest =>
      if Row.id x <=? Row.id r then r :: x :: rest
      else x :: insert_desc r rest
  end.

(** SELECT * FROM tasks ORDER BY id DESC; followed by [fetchall()]. *)
Definition select_all_desc (db : DB) : list Row.t :=
  fold_right insert_desc [] (tasks db).

(** UPDATE tasks SET title = ?, description = ?, completed = ?,
    updated_at = ? WHERE id = ?; *)
Definition set_fields (ttl : string) (descr : option string) (done : Z)
    (updated : timestamp) (r : Row.t) : Row.t :=
  Row.mk (Row.id r) ttl descr done (Row.created_at r) updated.

Definition update (ttl : string) (descr : option string) (done : Z)
    (updated : timestamp) (i : Z) (db : DB) : DB :=
  {| tasks := map (fun r => if has_id i r
                            then set_fields ttl descr done updated r
                            else r) (tasks db);
     sqlite_sequence := sqlite_sequence db |}.

(** UPDATE tasks SET completed = ?, updated_at = ? WHERE id = ?; *)
Definition set_completed (done : Z) (updated : timestamp) (r : Row.t)
    : Row.t :=
  Row.mk (Row.id r) (Row.title r) (Row.description r) done
         (Row.created_at r) updated.

Definition update_completed (done : Z) (updated : timestamp) (i : Z)
    (db : DB) : DB :=
  {| tasks := map (fun r => if has_id i r
                            then set_completed done updated r
                            else r) (tasks db);
     sqlite_sequence := sqlite_sequence db |}.

(** DELETE FROM tasks WHERE id = ?; *)
Definition delete (i : Z) (db : DB) : DB :=
  {| tasks := filter (fun r => negb (has_id i r)) (tasks db);
     sqlite_sequence := sqlite_sequence db |}.

End Sql.

(** ** Connections

    A connection sees its own uncommitted writes; [commit] publishes them and
    [close] drops whatever was not committed. *)

Record Connection : Type := mkConn {
  committed : DB;
  working : DB
}.

Definition _get_conn (file : DB) : Connection :=
  {| committed := file; working := file |}.

Definition close (c : Connection) : DB := committed c.

(** Code that runs between [_get_conn()] and [conn.close()]. *)
Definition Tx (A : Type) : Type := Connection -> outcome A * Connection.

Definition ret {A} (a : A) : Tx A := fun c => (Return a, c).

Definition raise {A} (e : exn) : Tx A := fun c => (Raise e, c).

Definition bind {A B} (m : Tx A) (k : A -> Tx B) : Tx B :=
  fun c =>
    match m c with
    | (Return a, c') => k a c'
    | (Raise e, c') => (Raise e, c')
    end.

Definition lift {A} (o : outcome A) : Tx A := fun c => (o, c).

Declare Scope tx_scope.
Delimit Scope tx_scope with tx.
Notation "x <- m ;; k" := (bind m (fun x => k))
  (at level 61, m at next level, right associativity) : tx_scope.
Notation "m ;; k" := (bind m (fun _ => k))
  (at level 61, right associativity) : tx_scope.
Open Scope tx_scope.

Definition query {A} (q : DB -> A) : Tx A :=
  fun c => (Return (q (working c)), c).

Definition execute (stmt : DB -> DB) : Tx unit :=
  fun c => (Return tt, {| committed := committed c;
                          working := stmt (working c) |}).

Definition execute_insert (ttl : string) (descr : option string) (done : Z)
    (created updated : timestamp) : Tx Z :=
  fun c =>
    let (i, db) := Sql.insert ttl descr done created updated (working c) in
    (Return i, {| committed := committed c; working := db |}).

(** [conn.execute(sql, (..., i))] with a Python int among the parameters:
    sqlite3 raises OverflowError, before the statement runs, when the int
    does not fit SQLite's 64-bit INTEGER. *)
Definition binding {A} (i : Z) (m : Tx A) : Tx A :=
  fun c => if Sql.fits_int64 i then m c else (Raise OverflowError, c).

Definition commit : Tx unit :=
  fun c => (Return tt, {| committed := working c; working := working c |}).

(** [conn = _get_conn(); try: ... finally: conn.close()] *)
Definition with_conn {A} (body : Tx A) (file : DB) : outcome A * DB :=
  let (r, c) := body (_get_conn file) in (r, close c).

(** ** Pydantic models *)

Module TaskBase.
(** [title: str = Field(..., min_length=1, max_length=200)] *)
Definition title_ok (s : string) : bool :=
  ((1 <=? String.length s) && (String.length s <=? 200))%nat.

(** [description: Optional[str] = Field(None, max_length=2000)] *)
Definition description_ok (d : option string) : bool :=
  match d with
  | None => true
  | Some s => (String.length s <=? 2000)%nat
  end.
End TaskBase.

Module Body.
(** A JSON request body with members of the expected JSON types; [None] is
    an absent member, and [Some None] for the description is [null].  A body
    with a member of another JSON type (a string for [completed], a number
    for [title]) is answered 422 by the framework before any of this runs and
    has no representation here: the statements below speak of well-typed
    bodies only. *)
Record t : Type := mk {
  title : option string;
  description : option (option string);
  completed : option bool
}.
End Body.

Module TaskCreate.
Record t : Type := mk {
  title : string;
  description : option string;
  completed : bool
}.

(** Validation of a body against the model: [title] is required, an absent
    [description] is [None], an absent [completed] is [False]. *)
Definition validate (b : Body.t) : option t :=
  match Body.title b with
  | None => None
  | Some s =>
      let d := match Body.description b with
               | None => None
               | Some d => d
               end in
      let c := match Body.completed b with
               | None => false
               | Some c => c
               end in
      if TaskBase.title_ok s && TaskBase.description_ok d
      then Some (mk s d c)
      else None
  end.
End TaskCreate.

Module TaskUpdate.
Record t : Type := mk {
  title : string;
  description : option string;
  completed : bool
}.

(** As [TaskCreate], but [completed] is required. *)
Definition validate (b : Body.t) : option t :=
  match Body.title b, Body.completed b with
  | Some s, Some c =>
      let d := match Body.description b with
               | None => None
               | Some d => d
               end in
      if TaskBase.title_ok s && TaskBase.description_ok d
      then Some (mk s d c)
      else None
  | _, _ => None
  end.
End TaskUpdate.

Module TaskOut.
Record t : Type := mk {
  id : Z;
  title : string;
  description : option string;
  completed : bool;
  created_at : timestamp;
  updated_at : timestamp
}.

(** The constructor call [TaskOut(...)]: the inherited field constraints
    are checked on construction. *)
Definition make (i : Z) (ttl : string) (descr : option string)
    (done : bool) (created updated : timestamp) : outcome t :=
  if TaskBase.title_ok ttl && TaskBase.description_ok descr
  then Return (mk i ttl descr done created updated)
  else Raise ValidationError.
End TaskOut.

Module TaskListResponse.
Record t : Type := mk { tasks : list TaskOut.t }.
End TaskListResponse.

Module TaskCompleteResponse.
Record t : Type := mk { task : TaskOut.t }.
End TaskCompleteResponse.

Definition _row_to_task (row : Row.t) : outcome TaskOut.t :=
  TaskOut.make (Row.id row) (Row.title row) (Row.description row)
               (negb (Row.completed row =? 0))
               (Row.created_at row) (Row.updated_at row).

(** [[_row_to_task(r) for r in rows]]: the first failing row aborts. *)
Fixpoint rows_to_tasks (rows : list Row.t) : outcome (list TaskOut.t) :=
  match rows with
  | [] => Return []
  | r :: rest =>
      match _row_to_task r with
      | Raise e => Raise e
      | Return t =>
          match rows_to_tasks rest with
          | Raise e => Raise e
          | Return ts => Return (t :: ts)
          end
      end
  end.

(** [1 if flag else 0] *)
Definition int_of_bool (flag : bool) : Z := if flag then 1 else 0.

Definition not_found : exn := HTTPException 404 "Task not found".

(** What a lookup of an id that has no row ends in: the 404 of the handler
    when the id could be bound, sqlite3's error when it could not. *)
Definition absent_exn (i : Z) : exn :=
  if Sql.fits_int64 i then not_found else OverflowError.

(** ** Route handlers *)

Definition list_tasks (file : DB) : outcome TaskListResponse.t * DB :=
  with_conn
    (rows <- query Sql.select_all_desc ;;
     ts <- lift (rows_to_tasks rows) ;;
     ret (TaskListResponse.mk ts))
    file.

(** The id bound in the read-back is [cur.lastrowid], the rowid SQLite has just
    given out, so this binding cannot fail. *)
Definition create_task (clock : Z) (payload : TaskCreate.t) (file : DB)
    : outcome TaskOut.t * DB :=
  let now := _utc_now_iso clock in
  with_conn
    (task_id <- execute_insert (TaskCreate.title payload)
                               (TaskCreate.description payload)
                               (int_of_bool (TaskCreate.completed payload))
                               now now ;;
     commit ;;
     row <- query (Sql.row_with_id task_id) ;;
     match row with
     | None => raise AssertionError
     | Some row => lift (_row_to_task row)
     end)
    file.

Definition replace_task (clock : Z) (id : Z) (payload : TaskUpdate.t)
    (file : DB) : outcome TaskOut.t * DB :=
  let now := _utc_now_iso clock in
  with_conn
    (existing <- binding id (query (Sql.select_by_id id)) ;;
     match existing with
     | None => raise not_found
     | Some _ =>
         binding id
           (execute (Sql.update (TaskUpdate.title payload)
                                (TaskUpdate.description payload)
                                (int_of_bool (TaskUpdate.completed payload))
                                now id)) ;;
         commit ;;
         row <- binding id (query (Sql.select_by_id id)) ;;
         match row with
         | None => raise AssertionError
         | Some row => lift (_row_to_task row)
         end
     end)
    file.

Definition set_task_completion (clock : Z) (id : Z) (completed : bool)
    (file : DB) : outcome TaskCompleteResponse.t * DB :=
  let now := _utc_now_iso clock in
  with_conn
    (existing <- binding id (query (Sql.select_by_id id)) ;;
     match existing with
     | None => raise not_found
     | Some _ =>
         binding id
           (execute (Sql.update_completed (int_of_bool completed) now id)) ;;
         commit ;;
         row <- binding id (query (Sql.select_by_id id)) ;;
         match row with
         | None => raise AssertionError
         | Some row =>
             t <- lift (_row_to_task row) ;;
             ret (TaskCompleteResponse.mk t)
         end
     end)
    file.

(** The 204 response carries no body. *)
Definition delete_task (id : Z) (file : DB) : outcome unit * DB :=
  with_conn
    (existing <- binding id (query (Sql.select_by_id id)) ;;
     match existing with
     | None => raise not_found
     | Some _ =>
         binding id (execute (Sql.delete id)) ;;
         commit ;;
         ret tt
     end)
    file.

(** ** Routing

    What the framework does before a handler runs: the path parameter is
    checked against [ge=1] and the body against the handler's model; a request
    that fails either check is answered 422 and the handler is not called. *)

Inductive Request : Type :=
| GET_tasks
| POST_tasks (clock : Z) (body : Body.t)
| PUT_task (clock : Z) (id : Z) (body : Body.t)
| PATCH_task_complete (clock : Z) (id : Z) (body : Body.t)
| DELETE_task (id : Z).

Inductive Response : Type :=
| TaskList (o : outcome TaskListResponse.t)
| Task (o : outcome TaskOut.t)
| TaskComplete (o : outcome TaskCompleteResponse.t)
| NoContent (o : outcome unit).

Definition post_tasks (clock : Z) (body : Body.t) (file : DB)
    : outcome TaskOut.t * DB :=
  match TaskCreate.validate body with
  | Some payload => create_task clock payload file
  | None => (Raise RequestValidationError, file)
  end.

Definition put_task (clock : Z) (id : Z) (body : Body.t) (file : DB)
    : outcome TaskOut.t * DB :=
  match 1 <=? id, TaskUpdate.validate body with
  | true, Some payload => replace_task clock id payload file
  | _, _ => (Raise RequestValidationError, file)
  end.

(** [completed: bool = Body(..., embed=True)]: the member is required. *)
Definition patch_task_complete (clock : Z) (id : Z) (body : Body.t)
    (file : DB) : outcome TaskCompleteResponse.t * DB :=
  match 1 <=? id, Body.completed body with
  | true, Some completed => set_task_completion clock id completed file
  | _, _ => (Raise RequestValidationError, file)
  end.

Definition delete_task_route (id : Z) (file : DB) : outcome unit * DB :=
  if 1 <=? id then delete_task id file
  else (Raise RequestValidationError, file).

Definition serve (req : Request) (file : DB) : Response * DB :=
  match req with
  | GET_tasks =>
      let (o, file') := list_tasks file in (TaskList o, file')
  | POST_tasks clock body =>
      let (o, file') := post_tasks clock body file in (Task o, file')
  | PUT_task clock id body =>
      let (o, file') := put_task clock id body file in (Task o, file')
  | PATCH_task_complete clock id body =>
      let (o, file') := patch_task_complete clock id body file in
      (TaskComplete o, file')
  | DELETE_task id =>
      let (o, file') := delete_task_route id file in (NoContent o, file')
  end.

(** Requests served one after the other; the responses come in order. *)
Fixpoint run (reqs : list Request) (file : DB) : list Response * DB :=
  match reqs with
  | [] => ([], file)
  | req :: rest =>
      let (resp, file') := serve req file in
      let (resps, file'') := run rest file' in
      (resp :: resps, file'')
  end.

(** The stores the service can be in: those a request sequence leads to from
    the table [_init_db] creates in a fresh file. *)
Definition reachable (file : DB) : Prop :=
  exists reqs, snd (run reqs (_init_db None)) = file.

(** Ids handed out by the store: what [POST_tasks] answered on success. *)
Definition issued_id (req : Request) (resp : Response) : list Z :=
  match req, resp with
  | POST_tasks _ _, Task (Return t) => [TaskOut.id t]
  | _, _ => []
  end.

Fixpoint issued_ids (reqs : list Request) (resps : list Response) : list Z :=
  match reqs, resps with
  | req :: reqs', resp :: resps' => issued_id req resp ++ issued_ids reqs' resps'
  | _, _ => []
  end.

(** Clock readings taken by the handlers of a request sequence. *)
Definition clock_of (req : Request) : list Z :=
  match req with
  | POST_tasks clock _ => [clock]
  | PUT_task clock _ _ => [clock]
  | PATCH_task_complete clock _ _ => [clock]
  | _ => []
  end.

Definition clocks (reqs : list Request) : list Z := flat_map clock_of reqs.

(** ** Vocabulary of the statements *)

(** A row whose text columns meet the field constraints of [TaskBase]. *)
Definition row_ok (r : Row.t) : Prop :=
  TaskBase.title_ok (Row.title r) = true /\
  TaskBase.description_ok (Row.description r) = true.

(** The representation of a row, without the constraint check. *)
Definition task_of_row (r : Row.t) : TaskOut.t :=
  TaskOut.mk (Row.id r) (Row.title r) (Row.description r)
             (negb (Row.completed r =? 0))
             (Row.created_at r) (Row.updated_at r).

(** What every store the service can be in satisfies. *)
Record store_ok (db : DB) : Prop := {
  ids_in_range :
    forall r, In r (tasks db) -> 1 <= Row.id r <= sqlite_sequence db;
  ids_unique : NoDup (map Row.id (tasks db));
  rows_valid : Forall row_ok (tasks db)
}.

(** A model instance that passed validation. *)
Definition update_payload_ok (p : TaskUpdate.t) : Prop :=
  TaskBase.title_ok (TaskUpdate.title p) = true /\
  TaskBase.description_ok (TaskUpdate.description p) = true.

(** A title of exactly 200 characters. *)
Definition title_200 : string :=
  string_of_list_ascii (repeat "a"%char 200).

Definition description_2001 : string :=
  string_of_list_ascii (repeat "d"%char 2001).

(** The list an UPDATE ... WHERE id = [i] leaves: rows carrying [i] go
    through [g], the others stay. *)
Definition rewrite_at (i : Z) (g : Row.t -> Row.t) (l : list Row.t)
    : list Row.t :=
  map (fun r => if Sql.has_id i r then g r else r) l.

(** The row an accepted create request adds to [file]. *)
Definition created_row (clock : Z) (file : DB) (payload : TaskCreate.t)
    : Row.t :=
  Row.mk (Sql.new_rowid file) (TaskCreate.title payload)
         (TaskCreate.description payload)
         (int_of_bool (TaskCreate.completed payload))
         (_utc_now_iso clock) (_utc_now_iso clock).

(** Every row was created no later than it was last updated, and last
    updated no later than [hi]. *)
Definition stamped (hi : timestamp) (db : DB) : Prop :=
  forall r, In r (tasks db) ->
            Row.created_at r <= Row.updated_at r /\ Row.updated_at r <= hi.

(** The id column, in table order. *)
Definition ids_of (db : DB) : list Z := map Row.id (tasks db).

(** The id a request asks the store to drop; the store is only asked when
    the id can be bound. *)
Definition removed_id (req : Request) (i : Z) : bool :=
  match req with
  | DELETE_task j => (i =? j) && Sql.fits_int64 j
  | _ => false
  end.

(** ** Vocabulary of the further properties *)

(** The exception a response carries, if it carries one. *)
Definition raised (resp : Response) : option exn :=
  match resp with
  | TaskList (Raise e) | Task (Raise e)
  | TaskComplete (Raise e) | NoContent (Raise e) => Some e
  | _ => None
  end.

(** 1 for a create that was answered with a task, 0 otherwise. *)
Definition created_one (req : Request) (resp : Response) : nat :=
  match req, resp with
  | POST_tasks _ _, Task (Return _) => 1
  | _, _ => 0
  end.

(** 1 for a delete that was answered with the empty success, 0 otherwise. *)
Definition deleted_one (req : Request) (resp : Response) : nat :=
  match req, resp with
  | DELETE_task _, NoContent (Return _) => 1
  | _, _ => 0
  end.

Fixpoint tally (f : Request -> Response -> nat) (reqs : list Request)
    (resps : list Response) : nat :=
  match reqs, resps with
  | req :: reqs', resp :: resps' => (f req resp + tally f reqs' resps')%nat
  | _, _ => 0%nat
  end.

(** The column values the handlers write: a 0/1 flag and whole seconds. *)
Definition row_wf (r : Row.t) : Prop :=
  (Row.completed r = 0 \/ Row.completed r = 1) /\
  Row.created_at r mod 1000000 = 0 /\
  Row.updated_at r mod 1000000 = 0.

(** Rows in non-increasing order of id. *)
Definition desc (l : list Row.t) : Prop :=
  StronglySorted (fun a b => Row.id b <= Row.id a) l.

(** The id a request is addressed to, for the three routes with a path id. *)
Definition target (req : Request) : option Z :=
  match req with
  | PUT_task _ id _ | PATCH_task_complete _ id _ | DELETE_task id => Some id
  | _ => None
  end.

(** A table as another program may have left it in the file: the single row
    has an empty title. *)
Definition legacy_db : DB :=
  {| tasks := [Row.mk 1 "" None 0 0 0]; sqlite_sequence := 1 |}.

(** ** Worked requests *)

Definition buy_milk : Body.t := Body.mk (Some "Buy milk"%string) None None.

(** Three creates, one second apart. *)
Definition three_tasks : list Request :=
  [POST_tasks 1000000 buy_milk; POST_tasks 2000000 buy_milk;
   POST_tasks 3000000 buy_milk].

Example create_buy_milk :
  post_tasks 1705314600123456 buy_milk (_init_db None) =
  (Return (TaskOut.mk 1 "Buy milk" None false 1705314600000000 1705314600000000),
   {| tasks := [Row.mk 1 "Buy milk" None 0 1705314600000000 1705314600000000];
      sqlite_sequence := 1 |}).
Proof. reflexivity. Qed.

Example complete_buy_milk :
  fst (run [POST_tasks 1705314600123456 buy_milk;
            PATCH_task_complete 1705314605000001 1 (Body.mk None None (Some true))]
           (_init_db None)) =
  [Task (Return (TaskOut.mk 1 "Buy milk" None false 1705314600000000 1705314600000000));
   TaskComplete (Return (TaskCompleteResponse.mk
     (TaskOut.mk 1 "Buy milk" None true 1705314600000000 1705314605000000)))].
Proof. reflexivity. Qed.

Example put_999 :
  put_task 5 999 (Body.mk (Some "x"%string) None (Some true)) (_init_db None) =
  (Raise not_found, _init_db None).
Proof. reflexivity. Qed.

Example delete_twice :
  fst (run [POST_tasks 0 buy_milk; DELETE_task 1; DELETE_task 1] (_init_db None)) =
  [Task (Return (TaskOut.mk 1 "Buy milk" None false 0 0));
   NoContent (Return tt); NoContent (Raise not_found)].
Proof. reflexivity. Qed.

Example list_after_delete :
  fst (run [POST_tasks 0 buy_milk; POST_tasks 0 buy_milk; POST_tasks 0 buy_milk;
            DELETE_task 2; POST_tasks 0 buy_milk; GET_tasks] (_init_db None)) =
  [Task (Return (TaskOut.mk 1 "Buy milk" None false 0 0));
   Task (Return (TaskOut.mk 2 "Buy milk" None false 0 0));
   Task (Return (TaskOut.mk 3 "Buy milk" None false 0 0));
   NoContent (Return tt);
   Task (Return (TaskOut.mk 4 "Buy milk" None false 0 0));
   TaskList (Return (TaskListResponse.mk
     [TaskOut.mk 4 "Buy milk" None false 0 0;
      TaskOut.mk 3 "Buy milk" None false 0 0;
      TaskOut.mk 1 "Buy milk" None false 0 0]))].
Proof. reflexivity. Qed.

(** ** The SQL statements *)

Section SqlFacts.

Lemma last_rowid_ge l r :
  In r l -> exists m, Sql.last_rowid l = Some m /\ Row.id r <= m.
Proof.
  induction l as [|x l IH]; simpl; [tauto|].
  intros [->|Hin].
  - destruct (Sql.last_rowid l) as [m|]; eexists; split; eauto; lia.
  - destruct (IH Hin) as (m & -> & Hm). eexists; split; eauto. lia.
Qed.

Lemma new_rowid_fresh db r :
  In r (tasks db) -> Row.id r < Sql.new_rowid db.
Proof.
  intros Hin. unfold Sql.new_rowid.
  destruct (last_rowid_ge _ _ Hin) as (m & -> & Hm).
  destruct (Z.ltb_spec (m + 1) (sqlite_sequence db + 1)); lia.
Qed.

Lemma new_rowid_gt_seq db : sqlite_sequence db < Sql.new_rowid db.
Proof.
  unfold Sql.new_rowid.
  match goal with |- context [?a <? ?b] => destruct (Z.ltb_spec a b) end; lia.
Qed.

Lemma new_rowid_positive db : store_ok db -> 1 <= Sql.new_rowid db.
Proof.
  intros Hok. destruct (tasks db) as [|x l] eqn:El.
  - unfold Sql.new_rowid. rewrite El. simpl.
    match goal with |- context [?a <? ?b] => destruct (Z.ltb_spec a b) end; lia.
  - assert (Hin : In x (tasks db)) by (rewrite El; left; reflexivity).
    pose proof (new_rowid_fresh db x Hin).
    pose proof (ids_in_range db Hok x Hin). lia.
Qed.

End SqlFacts.

Section Lookup.

Lemma has_id_true i r : Sql.has_id i r = true <-> Row.id r = i.
Proof. unfold Sql.has_id. apply Z.eqb_eq. Qed.

Lemma has_id_false i r : Sql.has_id i r = false <-> Row.id r <> i.
Proof. unfold Sql.has_id. apply Z.eqb_neq. Qed.

Lemma row_some i db r :
  Sql.row_with_id i db = Some r -> In r (tasks db) /\ Row.id r = i.
Proof.
  unfold Sql.row_with_id. intros H. apply find_some in H.
  destruct H as [Hin Hid]. split; [assumption | now apply has_id_true].
Qed.

Lemma row_none i db :
  Sql.row_with_id i db = None <->
  forall r, In r (tasks db) -> Row.id r <> i.
Proof.
  unfold Sql.row_with_id. split.
  - intros H r Hin. apply has_id_false. exact (find_none _ _ H r Hin).
  - intros H. induction (tasks db) as [|x l IH]; simpl; [reflexivity|].
    rewrite (proj2 (has_id_false i x)) by (apply H; now left).
    apply IH. intros r Hin. apply H. now right.
Qed.

Lemma row_unique i db r :
  NoDup (map Row.id (tasks db)) -> In r (tasks db) -> Row.id r = i ->
  Sql.row_with_id i db = Some r.
Proof.
  unfold Sql.row_with_id. induction (tasks db) as [|x l IH]; simpl.
  - tauto.
  - intros Hnd Hin Hid. inversion Hnd as [|? ? Hx Hl]; subst.
    destruct Hin as [->|Hin].
    + now rewrite (proj2 (has_id_true _ r)).
    + rewrite (proj2 (has_id_false _ x)); [now apply IH|].
      intros E. apply Hx. rewrite E. now apply in_map.
Qed.

(** Two rows of a table with distinct ids that carry the same id are one. *)
Lemma same_id_same_row db r r' :
  NoDup (map Row.id (tasks db)) -> In r (tasks db) -> In r' (tasks db) ->
  Row.id r' = Row.id r -> r' = r.
Proof.
  intros Hnd Hr Hr' Hid.
  pose proof (row_unique (Row.id r) db r Hnd Hr eq_refl) as E.
  pose proof (row_unique (Row.id r) db r' Hnd Hr' Hid) as E'.
  congruence.
Qed.

Lemma select_fits i db r :
  Sql.select_by_id i db = Some r -> Sql.fits_int64 i = true.
Proof.
  unfold Sql.select_by_id. now destruct (Sql.fits_int64 i).
Qed.

Lemma select_bound i db :
  Sql.fits_int64 i = true -> Sql.select_by_id i db = Sql.row_with_id i db.
Proof. unfold Sql.select_by_id. now intros ->. Qed.

Lemma select_unbound i db :
  Sql.fits_int64 i = false -> Sql.select_by_id i db = None.
Proof. unfold Sql.select_by_id. now intros ->. Qed.

Lemma select_some i db r :
  Sql.select_by_id i db = Some r -> In r (tasks db) /\ Row.id r = i.
Proof.
  intros H. pose proof (select_fits i db r H) as Hfit.
  rewrite (select_bound i db Hfit) in H. now apply row_some.
Qed.

Lemma select_none i db :
  Sql.fits_int64 i = true ->
  (Sql.select_by_id i db = None <->
   forall r, In r (tasks db) -> Row.id r <> i).
Proof.
  intros Hfit. rewrite (select_bound i db Hfit). apply row_none.
Qed.


Lemma select_unique i db r :
  Sql.fits_int64 i = true ->
  NoDup (map Row.id (tasks db)) -> In r (tasks db) -> Row.id r = i ->
  Sql.select_by_id i db = Some r.
Proof.
  intros Hfit. rewrite (select_bound i db Hfit). apply row_unique.
Qed.

Lemma find_snoc_fresh i l r :
  (forall x, In x l -> Row.id x <> i) -> Row.id r = i ->
  find (Sql.has_id i) (l ++ [r]) = Some r.
Proof.
  intros Hl Hr. induction l as [|x l IH]; simpl.
  - now rewrite (proj2 (has_id_true i r)).
  - rewrite (proj2 (has_id_false i x)) by (apply Hl; now left).
    apply IH. intros y Hy. apply Hl. now right.
Qed.

Lemma find_rewrite_at i j g l :
  (forall r, Row.id (g r) = Row.id r) ->
  find (Sql.has_id j) (rewrite_at i g l) =
  match find (Sql.has_id j) l with
  | Some r => Some (if Sql.has_id i r then g r else r)
  | None => None
  end.
Proof.
  intros Hg. induction l as [|x l IH]; simpl; [reflexivity|].
  assert (E : Sql.has_id j (if Sql.has_id i x then g x else x) = Sql.has_id j x).
  { unfold Sql.has_id at 1 3. destruct (Sql.has_id i x); [now rewrite Hg | reflexivity]. }
  rewrite E. destruct (Sql.has_id j x); [reflexivity | exact IH].
Qed.

Lemma ids_rewrite_at i g l :
  (forall r, Row.id (g r) = Row.id r) ->
  map Row.id (rewrite_at i g l) = map Row.id l.
Proof.
  intros Hg. unfold rewrite_at. rewrite map_map. apply map_ext.
  intros r. destruct (Sql.has_id i r); [apply Hg | reflexivity].
Qed.

Lemma nth_rewrite_at i g l n r :
  nth_error l n = Some r ->
  nth_error (rewrite_at i g l) n = Some (if Sql.has_id i r then g r else r).
Proof.
  intros H. unfold rewrite_at. now rewrite nth_error_map, H.
Qed.

End Lookup.

(** ** What each handler computes *)

Section Handlers.

Variables (clock : Z) (file : DB).

Lemma row_to_task_ok r : row_ok r -> _row_to_task r = Return (task_of_row r).
Proof.
  intros [Ht Hd]. unfold _row_to_task, TaskOut.make, task_of_row.
  now rewrite Ht, Hd.
Qed.

Lemma row_to_task_cases r :
  _row_to_task r = Return (task_of_row r) \/
  _row_to_task r = Raise ValidationError.
Proof.
  unfold _row_to_task, TaskOut.make, task_of_row.
  destruct (_ && _); auto.
Qed.

Lemma rows_to_tasks_ok rows :
  Forall row_ok rows -> rows_to_tasks rows = Return (map task_of_row rows).
Proof.
  induction 1 as [|r rows Hr _ IH]; simpl; [reflexivity|].
  now rewrite (row_to_task_ok r Hr), IH.
Qed.

Lemma list_tasks_eq :
  list_tasks file =
  (match rows_to_tasks (Sql.select_all_desc file) with
   | Return ts => Return (TaskListResponse.mk ts)
   | Raise e => Raise e
   end, file).
Proof.
  unfold list_tasks, with_conn, bind, query, lift, ret. simpl.
  destruct (rows_to_tasks _); reflexivity.
Qed.

Lemma create_task_eq payload :
  create_task clock payload file =
  (_row_to_task (created_row clock file payload),
   {| tasks := tasks file ++ [created_row clock file payload];
      sqlite_sequence := Sql.new_rowid file |}).
Proof.
  unfold create_task, with_conn, bind, execute_insert, commit, query. simpl.
  unfold Sql.row_with_id. simpl.
  rewrite find_snoc_fresh with (r := created_row clock file payload).
  - unfold lift. reflexivity.
  - intros x Hx. pose proof (new_rowid_fresh file x Hx). lia.
  - reflexivity.
Qed.

Lemma find_rewritten id g old :
  Sql.select_by_id id file = Some old ->
  (forall r, Row.id (g r) = Row.id r) ->
  Sql.select_by_id id
    {| tasks := rewrite_at id g (tasks file);
       sqlite_sequence := sqlite_sequence file |} = Some (g old).
Proof.
  intros H Hg. pose proof (select_fits id file old H) as Hfit.
  destruct (select_some id file old H) as [_ Hid].
  rewrite select_bound in * by exact Hfit.
  unfold Sql.row_with_id in *. simpl.
  rewrite find_rewrite_at by exact Hg. rewrite H.
  now rewrite (proj2 (has_id_true id old) Hid).
Qed.

Lemma replace_task_missing id payload :
  Sql.select_by_id id file = None ->
  replace_task clock id payload file = (Raise (absent_exn id), file).
Proof.
  intros H. unfold replace_task, with_conn, bind, binding, query, absent_exn.
  simpl. destruct (Sql.fits_int64 id); [now rewrite H | reflexivity].
Qed.

Lemma replace_task_found id payload old :
  Sql.select_by_id id file = Some old ->
  let g := Sql.set_fields (TaskUpdate.title payload)
                          (TaskUpdate.description payload)
                          (int_of_bool (TaskUpdate.completed payload))
                          (_utc_now_iso clock) in
  replace_task clock id payload file =
  (_row_to_task (g old),
   {| tasks := rewrite_at id g (tasks file);
      sqlite_sequence := sqlite_sequence file |}).
Proof.
  intros H g. pose proof (select_fits id file old H) as Hfit.
  pose proof (find_rewritten id g old H (fun _ => eq_refl)) as E.
  unfold replace_task, with_conn, bind, binding, query, execute, commit.
  simpl. rewrite Hfit. simpl. rewrite H. simpl.
  unfold Sql.update, rewrite_at, g in *. simpl. rewrite E. reflexivity.
Qed.

Lemma set_task_completion_missing id completed :
  Sql.select_by_id id file = None ->
  set_task_completion clock id completed file = (Raise (absent_exn id), file).
Proof.
  intros H.
  unfold set_task_completion, with_conn, bind, binding, query, absent_exn.
  simpl. destruct (Sql.fits_int64 id); [now rewrite H | reflexivity].
Qed.

Lemma set_task_completion_found id completed old :
  Sql.select_by_id id file = Some old ->
  let g := Sql.set_completed (int_of_bool completed) (_utc_now_iso clock) in
  set_task_completion clock id completed file =
  (match _row_to_task (g old) with
   | Return t => Return (TaskCompleteResponse.mk t)
   | Raise e => Raise e
   end,
   {| tasks := rewrite_at id g (tasks file);
      sqlite_sequence := sqlite_sequence file |}).
Proof.
  intros H g. pose proof (select_fits id file old H) as Hfit.
  pose proof (find_rewritten id g old H (fun _ => eq_refl)) as E.
  unfold set_task_completion, with_conn, bind, binding, query, execute, commit.
  simpl. rewrite Hfit. simpl. rewrite H. simpl.
  unfold Sql.update_completed, rewrite_at, g in *. simpl. rewrite E.
  unfold lift, ret. destruct (_row_to_task _); reflexivity.
Qed.

Lemma delete_task_missing id :
  Sql.select_by_id id file = None ->
  delete_task id file = (Raise (absent_exn id), file).
Proof.
  intros H. unfold delete_task, with_conn, bind, binding, query, absent_exn.
  simpl. destruct (Sql.fits_int64 id); [now rewrite H | reflexivity].
Qed.

Lemma delete_task_found id old :
  Sql.select_by_id id file = Some old ->
  delete_task id file = (Return tt, Sql.delete id file).
Proof.
  intros H. pose proof (select_fits id file old H) as Hfit.
  unfold delete_task, with_conn, bind, binding, query, execute, commit.
  simpl. rewrite Hfit. simpl. now rewrite H.
Qed.

Lemma absent_exn_bound id : Sql.fits_int64 id = true -> absent_exn id = not_found.
Proof. unfold absent_exn. now intros ->. Qed.

Lemma absent_exn_unbound id :
  Sql.fits_int64 id = false -> absent_exn id = OverflowError.
Proof. unfold absent_exn. now intros ->. Qed.

End Handlers.

(** ** Validation *)

Section Validation.

Lemma title_ok_iff s :
  TaskBase.title_ok s = true <-> (1 <= String.length s <= 200)%nat.
Proof.
  unfold TaskBase.title_ok. rewrite andb_true_iff, !Nat.leb_le. tauto.
Qed.

Lemma description_ok_iff d :
  TaskBase.description_ok d = true <->
  forall s, d = Some s -> (String.length s <= 2000)%nat.
Proof.
  destruct d as [s|]; simpl.
  - rewrite Nat.leb_le. split.
    + intros H s' [= <-]. exact H.
    + intros H. now apply H.
  - split; [discriminate | reflexivity].
Qed.

Lemma create_validate_some b p :
  TaskCreate.validate b = Some p ->
  TaskBase.title_ok (TaskCreate.title p) = true /\
  TaskBase.description_ok (TaskCreate.description p) = true.
Proof.
  unfold TaskCreate.validate. destruct (Body.title b) as [s|]; [|discriminate].
  destruct (_ && _) eqn:E; [|discriminate].
  intros [= <-]. simpl. now apply andb_true_iff.
Qed.

Lemma update_validate_some b p :
  TaskUpdate.validate b = Some p -> update_payload_ok p.
Proof.
  unfold TaskUpdate.validate, update_payload_ok.
  destruct (Body.title b) as [s|]; [|discriminate].
  destruct (Body.completed b) as [c|]; [|discriminate].
  destruct (_ && _) eqn:E; [|discriminate].
  intros [= <-]. simpl. now apply andb_true_iff.
Qed.

End Validation.

(** ** The store invariant *)

Section Invariant.

Lemma store_ok_init : store_ok (_init_db None).
Proof.
  split; simpl.
  - tauto.
  - constructor.
  - constructor.
Qed.

Lemma store_ok_insert db r :
  store_ok db -> row_ok r -> Row.id r = Sql.new_rowid db ->
  store_ok {| tasks := tasks db ++ [r]; sqlite_sequence := Sql.new_rowid db |}.
Proof.
  intros Hok Hr Hid. split; simpl.
  - intros x Hx. apply in_app_or in Hx. destruct Hx as [Hx|[<-|[]]].
    + pose proof (ids_in_range db Hok x Hx).
      pose proof (new_rowid_fresh db x Hx). lia.
    + pose proof (new_rowid_positive db Hok). lia.
  - rewrite map_app. simpl.
    apply NoDup_app.
    + exact (ids_unique db Hok).
    + constructor; [simpl; tauto | constructor].
    + intros i Hi [<-|[]]. apply in_map_iff in Hi.
      destruct Hi as (x & Hxi & Hx).
      pose proof (new_rowid_fresh db x Hx). lia.
  - apply Forall_app. split; [exact (rows_valid db Hok) | now constructor].
Qed.

Lemma store_ok_rewrite_at db i g :
  store_ok db ->
  (forall r, Row.id (g r) = Row.id r) ->
  (forall r, In r (tasks db) -> Row.id r = i -> row_ok (g r)) ->
  store_ok {| tasks := rewrite_at i g (tasks db);
              sqlite_sequence := sqlite_sequence db |}.
Proof.
  intros Hok Hg Hv. split; simpl.
  - intros x Hx. unfold rewrite_at in Hx. apply in_map_iff in Hx.
    destruct Hx as (r & <- & Hr).
    pose proof (ids_in_range db Hok r Hr).
    destruct (Sql.has_id i r); [now rewrite Hg | assumption].
  - rewrite ids_rewrite_at by assumption. exact (ids_unique db Hok).
  - unfold rewrite_at. apply Forall_forall. intros x Hx.
    apply in_map_iff in Hx. destruct Hx as (r & <- & Hr).
    destruct (Sql.has_id i r) eqn:E.
    + apply Hv; [assumption | now apply has_id_true].
    + pose proof (rows_valid db Hok) as Hall.
      rewrite Forall_forall in Hall. now apply Hall.
Qed.

Lemma NoDup_map_filter {A B} (f : A -> B) (p : A -> bool) l :
  NoDup (map f l) -> NoDup (map f (filter p l)).
Proof.
  induction l as [|x l IH]; simpl; [trivial|].
  intros Hnd. inversion Hnd as [|? ? Hx Hl]; subst.
  destruct (p x); simpl; [|now apply IH].
  constructor; [|now apply IH].
  intros Hin. apply Hx. apply in_map_iff in Hin.
  destruct Hin as (y & Hy & Hin). apply filter_In in Hin.
  apply in_map_iff. exists y. tauto.
Qed.

Lemma store_ok_delete db i : store_ok db -> store_ok (Sql.delete i db).
Proof.
  intros Hok. split; simpl.
  - intros x Hx. apply filter_In in Hx. apply (ids_in_range db Hok). tauto.
  - apply NoDup_map_filter. exact (ids_unique db Hok).
  - pose proof (rows_valid db Hok) as Hall. rewrite Forall_forall in *.
    intros x Hx. apply filter_In in Hx. apply Hall. tauto.
Qed.

Lemma store_ok_create clock payload db :
  store_ok db ->
  TaskBase.title_ok (TaskCreate.title payload) = true ->
  TaskBase.description_ok (TaskCreate.description payload) = true ->
  store_ok (snd (create_task clock payload db)).
Proof.
  intros Hok Ht Hd. rewrite create_task_eq. simpl.
  apply store_ok_insert; [assumption | split; assumption | reflexivity].
Qed.

Lemma store_ok_replace clock id payload db :
  store_ok db -> update_payload_ok payload ->
  store_ok (snd (replace_task clock id payload db)).
Proof.
  intros Hok Hp. destruct (Sql.select_by_id id db) as [old|] eqn:E.
  - rewrite (replace_task_found clock db id payload old E). simpl.
    apply store_ok_rewrite_at; [assumption | reflexivity |].
    intros r _ _. exact Hp.
  - now rewrite (replace_task_missing clock db id payload E).
Qed.

Lemma store_ok_set_completion clock id completed db :
  store_ok db -> store_ok (snd (set_task_completion clock id completed db)).
Proof.
  intros Hok. destruct (Sql.select_by_id id db) as [old|] eqn:E.
  - rewrite (set_task_completion_found clock db id completed old E). simpl.
    apply store_ok_rewrite_at; [assumption | reflexivity |].
    intros r Hr _. pose proof (rows_valid db Hok) as Hall.
    rewrite Forall_forall in Hall. exact (Hall r Hr).
  - now rewrite (set_task_completion_missing clock db id completed E).
Qed.

Lemma store_ok_delete_task id db :
  store_ok db -> store_ok (snd (delete_task id db)).
Proof.
  intros Hok. destruct (Sql.select_by_id id db) as [old|] eqn:E.
  - rewrite (delete_task_found db id old E). simpl. now apply store_ok_delete.
  - now rewrite (delete_task_missing db id E).
Qed.

Lemma store_ok_serve req db : store_ok db -> store_ok (snd (serve req db)).
Proof.
  intros Hok. destruct req as [|clock body|clock id body|clock id body|id]; simpl.
  - rewrite list_tasks_eq. exact Hok.
  - unfold post_tasks. destruct (TaskCreate.validate body) as [p|] eqn:E.
    + destruct (create_validate_some body p E) as [Ht Hd].
      pose proof (store_ok_create clock p db Hok Ht Hd) as H.
      destruct (create_task clock p db). exact H.
    + exact Hok.
  - unfold put_task. destruct (1 <=? id); [|exact Hok].
    destruct (TaskUpdate.validate body) as [p|] eqn:E; [|exact Hok].
    pose proof (store_ok_replace clock id p db Hok (update_validate_some body p E)) as H.
    destruct (replace_task clock id p db). exact H.
  - unfold patch_task_complete. destruct (1 <=? id); [|exact Hok].
    destruct (Body.completed body) as [c|]; [|exact Hok].
    pose proof (store_ok_set_completion clock id c db Hok) as H.
    destruct (set_task_completion clock id c db). exact H.
  - unfold delete_task_route. destruct (1 <=? id); [|exact Hok].
    pose proof (store_ok_delete_task id db Hok) as H.
    destruct (delete_task id db). exact H.
Qed.

Lemma store_ok_run reqs : forall db, store_ok db -> store_ok (snd (run reqs db)).
Proof.
  induction reqs as [|req reqs IH]; simpl; intros db Hok; [exact Hok|].
  pose proof (store_ok_serve req db Hok) as H1.
  destruct (serve req db) as [resp db1]. simpl in H1.
  pose proof (IH db1 H1) as H2.
  destruct (run reqs db1) as [resps db2]. exact H2.
Qed.

Lemma reachable_store_ok db : reachable db -> store_ok db.
Proof.
  intros [reqs <-]. apply store_ok_run. exact store_ok_init.
Qed.

End Invariant.

(** ** Create *)

(** The payload the router builds from a body that has a title. *)
Lemma post_tasks_accepted clock body ttl file :
  Body.title body = Some ttl ->
  (1 <= String.length ttl <= 200)%nat ->
  (forall d, Body.description body = Some (Some d) ->
             (String.length d <= 2000)%nat) ->
  let payload :=
    TaskCreate.mk ttl
      (match Body.description body with Some d => d | None => None end)
      (match Body.completed body with Some c => c | None => false end) in
  post_tasks clock body file =
    (Return (task_of_row (created_row clock file payload)),
     {| tasks := tasks file ++ [created_row clock file payload];
        sqlite_sequence := Sql.new_rowid file |}).
Proof.
  intros Ht Hlen Hd payload.
  assert (Hdok : TaskBase.description_ok (TaskCreate.description payload) = true).
  { apply description_ok_iff. intros s Hs. apply Hd. simpl in Hs.
    destruct (Body.description body) as [[s'|]|]; congruence. }
  assert (Hv : TaskCreate.validate body = Some payload).
  { unfold TaskCreate.validate. rewrite Ht. simpl in Hdok.
    now rewrite (proj2 (title_ok_iff ttl) Hlen), Hdok. }
  unfold post_tasks. rewrite Hv, create_task_eq.
  now rewrite row_to_task_ok
    by (split; simpl; [now apply title_ok_iff | exact Hdok]).
Qed.

(** C1.  A create request whose title has 1 to 200 characters and whose
    description, when given, has at most 2000 is answered with a task, and the
    store afterwards is the store before followed by exactly one new row, the
    row the answer represents.  In the answer [created_at] and [updated_at] are
    the same instant (the clock reading cut to the second), [completed] is
    false when the body leaves it out and the supplied value otherwise, and
    title and description are those of the body. *)
Theorem create_task_inserts_one_row clock body ttl file :
  Body.title body = Some ttl ->
  (1 <= String.length ttl <= 200)%nat ->
  (forall d, Body.description body = Some (Some d) ->
             (String.length d <= 2000)%nat) ->
  exists task row,
    post_tasks clock body file =
      (Return task, {| tasks := tasks file ++ [row];
                       sqlite_sequence := Row.id row |}) /\
    (forall r, In r (tasks file) -> Row.id r <> Row.id row) /\
    List.length (tasks (snd (post_tasks clock body file))) =
      S (List.length (tasks file)) /\
    task = task_of_row row /\
    TaskOut.created_at task = TaskOut.updated_at task /\
    TaskOut.created_at task = _utc_now_iso clock /\
    TaskOut.completed task =
      match Body.completed body with Some c => c | None => false end /\
    TaskOut.title task = ttl /\
    TaskOut.description task =
      match Body.description body with Some d => d | None => None end.
Proof.
  intros Ht Hlen Hd.
  rewrite (post_tasks_accepted clock body ttl file Ht Hlen Hd).
  eexists _, (created_row clock file _). split; [reflexivity|].
  simpl. repeat split.
  - intros r Hr. pose proof (new_rowid_fresh file r Hr). lia.
  - rewrite length_app. simpl. lia.
  - now destruct (Body.completed body) as [[|]|].
Qed.

(** The scenario of the specification, through the theorem. *)
Lemma create_task_inserts_one_row_witness :
  exists task row,
    post_tasks 1705314600123456 buy_milk (_init_db None) =
      (Return task, {| tasks := tasks (_init_db None) ++ [row];
                       sqlite_sequence := Row.id row |}) /\
    TaskOut.created_at task = TaskOut.updated_at task /\
    TaskOut.completed task = false /\
    TaskOut.title task = "Buy milk"%string /\
    TaskOut.description task = None.
Proof.
  destruct (create_task_inserts_one_row 1705314600123456 buy_milk
              "Buy milk"%string (_init_db None))
    as (task & row & H1 & _ & _ & _ & H2 & _ & H3 & H4 & H5).
  - reflexivity.
  - simpl. lia.
  - intros d Hd. discriminate Hd.
  - exists task, row. repeat split; assumption.
Defined.

(** ** Operations on an id that has no row *)




(** ** Replace *)

(** C3.  When the store has a row for [id] and the payload meets the field
    constraints, [replace_task] returns the representation of that row with
    title, description and completed taken from the payload, [updated_at] set
    to the current time, and [id] and [created_at] as they were.  The row
    persisted under [id] is the one represented; the store keeps its length,
    its ids position by position and its sequence value, and every row with
    another id stays where and as it was. *)
Theorem replace_task_overwrites clock id payload file old :
  Sql.select_by_id id file = Some old ->
  update_payload_ok payload ->
  exists task row file',
    replace_task clock id payload file = (Return task, file') /\
    Sql.select_by_id id file' = Some row /\ task = task_of_row row /\
    TaskOut.id task = id /\
    TaskOut.title task = TaskUpdate.title payload /\
    TaskOut.description task = TaskUpdate.description payload /\
    TaskOut.completed task = TaskUpdate.completed payload /\
    TaskOut.updated_at task = _utc_now_iso clock /\
    TaskOut.created_at task = Row.created_at old /\
    map Row.id (tasks file') = map Row.id (tasks file) /\
    sqlite_sequence file' = sqlite_sequence file /\
    (forall n r, nth_error (tasks file) n = Some r -> Row.id r <> id ->
                 nth_error (tasks file') n = Some r) /\
    (forall n r, nth_error (tasks file) n = Some r -> Row.id r = id ->
                 nth_error (tasks file') n =
                 Some (Row.mk id (TaskUpdate.title payload)
                              (TaskUpdate.description payload)
                              (int_of_bool (TaskUpdate.completed payload))
                              (Row.created_at r) (_utc_now_iso clock))).
Proof.
  intros Hsel Hp.
  set (g := Sql.set_fields (TaskUpdate.title payload)
                           (TaskUpdate.description payload)
                           (int_of_bool (TaskUpdate.completed payload))
                           (_utc_now_iso clock)).
  destruct (select_some id file old Hsel) as [Hin Hid].
  exists (task_of_row (g old)), (g old),
         {| tasks := rewrite_at id g (tasks file);
            sqlite_sequence := sqlite_sequence file |}.
  rewrite (replace_task_found clock file id payload old Hsel). fold g.
  rewrite (row_to_task_ok (g old)) by exact Hp.
  split; [reflexivity|]. split.
  { exact (find_rewritten file id g old Hsel (fun _ => eq_refl)). }
  simpl. repeat split.
  - exact Hid.
  - now destruct (TaskUpdate.completed payload).
  - now apply ids_rewrite_at.
  - intros n r Hn Hr. rewrite (nth_rewrite_at id g _ n r Hn).
    now rewrite (proj2 (has_id_false id r) Hr).
  - intros n r Hn Hr. rewrite (nth_rewrite_at id g _ n r Hn).
    rewrite (proj2 (has_id_true id r) Hr). unfold g, Sql.set_fields.
    now rewrite Hr.
Qed.

Lemma replace_task_overwrites_witness :
  let file := snd (run [POST_tasks 1000000 buy_milk; POST_tasks 2000000 buy_milk]
                       (_init_db None)) in
  exists task file',
    replace_task 9000000 1 (TaskUpdate.mk "Buy bread" (Some "rye"%string) true) file =
      (Return task, file') /\
    task = TaskOut.mk 1 "Buy bread" (Some "rye"%string) true 1000000 9000000 /\
    nth_error (tasks file') 1 = Some (Row.mk 2 "Buy milk" None 0 2000000 2000000).
Proof.
  intros file.
  destruct (replace_task_overwrites 9000000 1
              (TaskUpdate.mk "Buy bread" (Some "rye"%string) true) file
              (Row.mk 1 "Buy milk" None 0 1000000 1000000))
    as (task & row & file' & H & _ & _ & H1 & H2 & H3 & H4 & H5 & H6 & _ & _ & Hfr & _).
  - reflexivity.
  - split; reflexivity.
  - exists task, file'. split; [exact H|]. split.
    + destruct task; simpl in *. now subst.
    + apply Hfr; [reflexivity | simpl; lia].
Defined.

(** ** Set completion *)

(** C4.  In a store the service can be in, when [id] has a row [old],
    [set_task_completion] answers with the wrapper [{task: ...}] around the
    representation of [old] with only [completed] and [updated_at] replaced.
    The row now stored under [id] is [old] with those two columns rewritten;
    every other row stays where and as it was, and ids and sequence value are
    kept.  Through the router the answer is a [TaskComplete] response, never
    the bare-task response [Task] that PUT gives. *)
Theorem set_task_completion_overwrites clock id completed file old :
  reachable file ->
  Sql.select_by_id id file = Some old ->
  exists task file',
    set_task_completion clock id completed file =
      (Return {| TaskCompleteResponse.task := task |}, file') /\
    task = TaskOut.mk id (Row.title old) (Row.description old) completed
                      (Row.created_at old) (_utc_now_iso clock) /\
    Sql.select_by_id id file' =
      Some (Row.mk id (Row.title old) (Row.description old)
                   (int_of_bool completed)
                   (Row.created_at old) (_utc_now_iso clock)) /\
    (forall n r, nth_error (tasks file) n = Some r -> r <> old ->
                 nth_error (tasks file') n = Some r) /\
    map Row.id (tasks file') = map Row.id (tasks file) /\
    sqlite_sequence file' = sqlite_sequence file /\
    serve (PATCH_task_complete clock id (Body.mk None None (Some completed))) file =
      (TaskComplete (Return {| TaskCompleteResponse.task := task |}), file') /\
    (forall o, fst (serve (PATCH_task_complete clock id
                             (Body.mk None None (Some completed))) file)
               <> Task o).
Proof.
  intros Hreach Hsel.
  pose proof (reachable_store_ok file Hreach) as Hok.
  destruct (select_some id file old Hsel) as [Hin Hid].
  set (g := Sql.set_completed (int_of_bool completed) (_utc_now_iso clock)).
  assert (Hold : row_ok old).
  { pose proof (rows_valid file Hok) as Hall. rewrite Forall_forall in Hall.
    now apply Hall. }
  assert (Hrun : set_task_completion clock id completed file =
                 (Return {| TaskCompleteResponse.task := task_of_row (g old) |},
                  {| tasks := rewrite_at id g (tasks file);
                     sqlite_sequence := sqlite_sequence file |})).
  { rewrite (set_task_completion_found clock file id completed old Hsel). fold g.
    now rewrite (row_to_task_ok (g old)) by exact Hold. }
  exists (task_of_row (g old)),
         {| tasks := rewrite_at id g (tasks file);
            sqlite_sequence := sqlite_sequence file |}.
  split; [exact Hrun|]. split.
  { unfold task_of_row, g. simpl. rewrite Hid. now destruct completed. }
  split.
  { rewrite (find_rewritten file id g old Hsel (fun _ => eq_refl)).
    unfold g, Sql.set_completed. now rewrite Hid. }
  split.
  { intros n r Hn Hr. simpl. rewrite (nth_rewrite_at id g _ n r Hn).
    destruct (Sql.has_id id r) eqn:E; [|reflexivity].
    exfalso. apply Hr. apply has_id_true in E.
    pose proof (select_unique id file r (select_fits id file old Hsel)
                  (ids_unique file Hok) (nth_error_In _ _ Hn) E) as Hsel'.
    congruence. }
  split; [now apply ids_rewrite_at|].
  split; [reflexivity|].
  assert (Hge : (1 <=? id) = true).
  { apply Z.leb_le. pose proof (ids_in_range file Hok old Hin). lia. }
  split.
  - simpl. unfold patch_task_complete. simpl. now rewrite Hge, Hrun.
  - intros o. simpl. unfold patch_task_complete. simpl. rewrite Hge, Hrun.
    simpl. discriminate.
Qed.

Lemma set_task_completion_overwrites_witness :
  let file := snd (run [POST_tasks 1000000 buy_milk; POST_tasks 2000000 buy_milk]
                       (_init_db None)) in
  exists file',
    set_task_completion 9000000 1 true file =
      (Return {| TaskCompleteResponse.task :=
                   TaskOut.mk 1 "Buy milk" None true 1000000 9000000 |}, file') /\
    nth_error (tasks file') 1 = Some (Row.mk 2 "Buy milk" None 0 2000000 2000000).
Proof.
  intros file.
  destruct (set_task_completion_overwrites 9000000 1 true file
              (Row.mk 1 "Buy milk" None 0 1000000 1000000))
    as (task & file' & H & -> & _ & Hfr & _).
  - exists [POST_tasks 1000000 buy_milk; POST_tasks 2000000 buy_milk]. reflexivity.
  - reflexivity.
  - exists file'. split; [exact H|].
    apply Hfr; [reflexivity | discriminate].
Defined.

(** ** List *)

Section OrderBy.

Lemma insert_desc_perm r l : Permutation (Sql.insert_desc r l) (r :: l).
Proof.
  induction l as [|x l IH]; simpl; [reflexivity|].
  destruct (Row.id x <=? Row.id r); [reflexivity|].
  rewrite IH. apply perm_swap.
Qed.

Lemma select_all_desc_perm db : Permutation (Sql.select_all_desc db) (tasks db).
Proof.
  unfold Sql.select_all_desc. induction (tasks db) as [|x l IH]; simpl.
  - reflexivity.
  - rewrite insert_desc_perm. now constructor.
Qed.

Lemma insert_desc_sorted r l :
  StronglySorted Z.gt (map Row.id l) ->
  ~ In (Row.id r) (map Row.id l) ->
  StronglySorted Z.gt (map Row.id (Sql.insert_desc r l)).
Proof.
  induction l as [|x l IH]; simpl; intros Hs Hr.
  - repeat constructor.
  - inversion Hs as [|? ? Hl Hx]; subst.
    destruct (Z.leb_spec (Row.id x) (Row.id r)) as [Hle|Hgt]; simpl.
    + assert (Row.id r > Row.id x) by (assert (Row.id x <> Row.id r) by tauto; lia).
      constructor; [exact Hs|]. constructor; [assumption|].
      eapply Forall_impl; [|exact Hx]. simpl. intros; lia.
    + constructor; [apply IH; tauto|].
      eapply Permutation_Forall.
      * symmetry. apply Permutation_map. apply insert_desc_perm.
      * simpl. constructor; [lia | exact Hx].
Qed.

Lemma select_all_desc_sorted db :
  NoDup (map Row.id (tasks db)) ->
  StronglySorted Z.gt (map Row.id (Sql.select_all_desc db)).
Proof.
  unfold Sql.select_all_desc. induction (tasks db) as [|x l IH]; simpl.
  - constructor.
  - intros Hnd. inversion Hnd as [|? ? Hx Hl]; subst.
    apply insert_desc_sorted; [now apply IH|].
    intros Hin. apply Hx.
    eapply Permutation_in; [|exact Hin].
    apply Permutation_map. clear.
    induction l as [|y l IH]; simpl; [reflexivity|].
    rewrite insert_desc_perm. now constructor.
Qed.

End OrderBy.

(** C5.  [list_tasks] has no argument but the store.  In a store the service
    can be in, whatever requests led to it, the call returns a list whose
    members are exactly the representations of the stored rows, each once;
    the ids along the list are strictly decreasing; and the store it hands
    back is the store it was given. *)
Theorem list_tasks_all_desc file :
  reachable file ->
  exists ts,
    list_tasks file = (Return {| TaskListResponse.tasks := ts |}, file) /\
    Permutation (map Return ts) (map _row_to_task (tasks file)) /\
    List.length ts = List.length (tasks file) /\
    StronglySorted Z.gt (map TaskOut.id ts).
Proof.
  intros Hreach. pose proof (reachable_store_ok file Hreach) as Hok.
  pose proof (select_all_desc_perm file) as Hperm.
  assert (Hall : Forall row_ok (Sql.select_all_desc file)).
  { eapply Permutation_Forall; [symmetry; exact Hperm | exact (rows_valid file Hok)]. }
  exists (map task_of_row (Sql.select_all_desc file)).
  rewrite list_tasks_eq, (rows_to_tasks_ok _ Hall).
  split; [reflexivity|]. split; [|split].
  - rewrite map_map.
    transitivity (map _row_to_task (Sql.select_all_desc file)).
    + apply Permutation_refl'. apply map_ext_in. intros r Hr.
      symmetry. apply row_to_task_ok. rewrite Forall_forall in Hall. now apply Hall.
    + now apply Permutation_map.
  - rewrite length_map. now apply Permutation_length.
  - rewrite map_map. simpl.
    change (map (fun x => Row.id x) (Sql.select_all_desc file))
      with (map Row.id (Sql.select_all_desc file)).
    apply select_all_desc_sorted. exact (ids_unique file Hok).
Qed.

Lemma list_tasks_all_desc_witness :
  let file := snd (run [POST_tasks 0 buy_milk; POST_tasks 0 buy_milk;
                        POST_tasks 0 buy_milk; DELETE_task 2;
                        PATCH_task_complete 5000000 1 (Body.mk None None (Some true))]
                       (_init_db None)) in
  exists ts,
    list_tasks file = (Return {| TaskListResponse.tasks := ts |}, file) /\
    map TaskOut.id ts = [3; 1].
Proof.
  intros file.
  destruct (list_tasks_all_desc file) as (ts & H & _ & _ & _).
  - exists [POST_tasks 0 buy_milk; POST_tasks 0 buy_milk;
            POST_tasks 0 buy_milk; DELETE_task 2;
            PATCH_task_complete 5000000 1 (Body.mk None None (Some true))].
    reflexivity.
  - exists ts. split; [exact H|].
    assert (E : fst (list_tasks file) = Return {| TaskListResponse.tasks := ts |})
      by now rewrite H.
    vm_compute in E. injection E as <-. reflexivity.
Defined.

(** ** Validation of create requests *)

(** C6.  A create request whose title is empty or longer than 200 characters,
    or whose description is longer than 2000 characters, is answered with the
    request-validation error and the store is handed back untouched, so no row
    was written.  A request whose title has exactly 200 characters (its
    description, if any, within bounds) is accepted: a task is returned and
    the store has one more row. *)
Theorem create_task_length_limits clock body ttl file :
  Body.title body = Some ttl ->
  ((String.length ttl = 0 \/ 200 < String.length ttl \/
    exists d, Body.description body = Some (Some d) /\
              2000 < String.length d)%nat ->
   post_tasks clock body file = (Raise RequestValidationError, file)) /\
  (String.length ttl = 200%nat ->
   (forall d, Body.description body = Some (Some d) ->
              (String.length d <= 2000)%nat) ->
   exists task,
     fst (post_tasks clock body file) = Return task /\
     List.length (tasks (snd (post_tasks clock body file))) =
       S (List.length (tasks file))).
Proof.
  intros Ht. split.
  - intros Hbad. unfold post_tasks, TaskCreate.validate. rewrite Ht.
    match goal with |- context [?a && ?b] => assert (E : a && b = false) end.
    { apply andb_false_iff. destruct Hbad as [H0|[H200|(d & Hd & Hlen)]].
      - left. unfold TaskBase.title_ok. rewrite H0. reflexivity.
      - left. unfold TaskBase.title_ok. apply andb_false_iff. right.
        apply Nat.leb_gt. exact H200.
      - right. rewrite Hd. simpl. apply Nat.leb_gt. exact Hlen. }
    now rewrite E.
  - intros Hlen Hd.
    rewrite (post_tasks_accepted clock body ttl file Ht) by (lia || exact Hd).
    eexists. simpl. split; [reflexivity|].
    rewrite length_app. simpl. lia.
Qed.

Lemma create_task_length_limits_witness :
  post_tasks 0 (Body.mk (Some ""%string) None None) (_init_db None) =
    (Raise RequestValidationError, _init_db None) /\
  post_tasks 0 (Body.mk (Some "ok"%string) (Some (Some description_2001)) None)
             (_init_db None) =
    (Raise RequestValidationError, _init_db None) /\
  exists task,
    fst (post_tasks 0 (Body.mk (Some title_200) None None) (_init_db None)) =
      Return task /\
    List.length (tasks (snd (post_tasks 0 (Body.mk (Some title_200) None None)
                                        (_init_db None)))) = 1%nat.
Proof.
  split; [|split].
  - apply (create_task_length_limits 0 (Body.mk (Some ""%string) None None)
             ""%string (_init_db None)); [reflexivity|].
    left. reflexivity.
  - apply (create_task_length_limits 0
             (Body.mk (Some "ok"%string) (Some (Some description_2001)) None)
             "ok"%string (_init_db None)); [reflexivity|].
    right. right. exists description_2001. split; [reflexivity|].
    vm_compute. apply Nat.leb_le. vm_compute. reflexivity.
  - apply (create_task_length_limits 0 (Body.mk (Some title_200) None None)
             title_200 (_init_db None)); [reflexivity | | ].
    + vm_compute. reflexivity.
    + intros d Hd. discriminate Hd.
Defined.

(** ** Replace with the description left out *)

(** C9.  In a store the service can be in, a PUT for a stored [id] whose body
    has no [description] member and is otherwise valid is validated to a
    payload whose description is [None]; the row then stored under [id] and
    the task returned both have a null description, whatever description the
    row had before. *)
Theorem replace_without_description_stores_null clock id body payload file old :
  reachable file ->
  Sql.select_by_id id file = Some old ->
  Body.description body = None ->
  TaskUpdate.validate body = Some payload ->
  TaskUpdate.description payload = None /\
  exists task row file',
    put_task clock id body file = (Return task, file') /\
    TaskOut.description task = None /\
    Sql.select_by_id id file' = Some row /\
    Row.description row = None /\
    Row.id row = id /\ Row.created_at row = Row.created_at old.
Proof.
  intros Hreach Hsel Hdesc Hv.
  pose proof (reachable_store_ok file Hreach) as Hok.
  destruct (select_some id file old Hsel) as [Hin Hid].
  assert (Hnone : TaskUpdate.description payload = None).
  { unfold TaskUpdate.validate in Hv. rewrite Hdesc in Hv.
    destruct (Body.title body); [|discriminate].
    destruct (Body.completed body); [|discriminate].
    destruct (_ && _); [|discriminate]. now injection Hv as <-. }
  split; [exact Hnone|].
  set (g := Sql.set_fields (TaskUpdate.title payload)
                           (TaskUpdate.description payload)
                           (int_of_bool (TaskUpdate.completed payload))
                           (_utc_now_iso clock)).
  exists (task_of_row (g old)), (g old),
         {| tasks := rewrite_at id g (tasks file);
            sqlite_sequence := sqlite_sequence file |}.
  assert (Hge : (1 <=? id) = true).
  { apply Z.leb_le. pose proof (ids_in_range file Hok old Hin). lia. }
  unfold put_task. rewrite Hge, Hv.
  rewrite (replace_task_found clock file id payload old Hsel). fold g.
  rewrite (row_to_task_ok (g old)) by exact (update_validate_some body payload Hv).
  split; [reflexivity|]. split; [exact Hnone|]. split.
  { exact (find_rewritten file id g old Hsel (fun _ => eq_refl)). }
  simpl. auto.
Qed.

Lemma replace_without_description_stores_null_witness :
  let file := snd (run [POST_tasks 1000000
                          (Body.mk (Some "Buy milk"%string)
                                   (Some (Some "two litres"%string)) None)]
                       (_init_db None)) in
  Sql.select_by_id 1 file =
    Some (Row.mk 1 "Buy milk" (Some "two litres"%string) 0 1000000 1000000) /\
  exists task row file',
    put_task 3000000 1 (Body.mk (Some "Buy milk"%string) None (Some false)) file =
      (Return task, file') /\
    TaskOut.description task = None /\
    Sql.select_by_id 1 file' = Some row /\
    Row.description row = None.
Proof.
  intros file. split; [reflexivity|].
  destruct (replace_without_description_stores_null 3000000 1
              (Body.mk (Some "Buy milk"%string) None (Some false))
              (TaskUpdate.mk "Buy milk" None false) file
              (Row.mk 1 "Buy milk" (Some "two litres"%string) 0 1000000 1000000))
    as (_ & task & row & file' & H1 & H2 & H3 & H4 & _).
  - exists [POST_tasks 1000000
              (Body.mk (Some "Buy milk"%string)
                       (Some (Some "two litres"%string)) None)].
    reflexivity.
  - reflexivity.
  - reflexivity.
  - reflexivity.
  - exists task, row, file'. auto.
Defined.

(** ** The rows read back *)


(** ** Timestamps over the lifetime of a task *)

Section Stamps.

Lemma utc_now_iso_mono c c' : c <= c' -> _utc_now_iso c <= _utc_now_iso c'.
Proof.
  intros H. unfold _utc_now_iso.
  pose proof (Z.div_mod c 1000000 ltac:(lia)) as E.
  pose proof (Z.div_mod c' 1000000 ltac:(lia)) as E'.
  pose proof (Z.div_le_mono c c' 1000000 ltac:(lia) H). lia.
Qed.

Lemma stamped_weaken hi hi' db : hi <= hi' -> stamped hi db -> stamped hi' db.
Proof. intros Hle Hs r Hr. specialize (Hs r Hr). lia. Qed.

Lemma stamped_rewrite_at hi now i g db :
  stamped hi db -> hi <= now ->
  (forall r, Row.created_at (g r) = Row.created_at r /\
             Row.updated_at (g r) = now) ->
  stamped now {| tasks := rewrite_at i g (tasks db);
                 sqlite_sequence := sqlite_sequence db |}.
Proof.
  intros Hs Hle Hg x Hx. simpl in Hx. unfold rewrite_at in Hx.
  apply in_map_iff in Hx. destruct Hx as (r & <- & Hr).
  specialize (Hs r Hr). destruct (Sql.has_id i r).
  - destruct (Hg r) as [-> ->]. lia.
  - lia.
Qed.

(** One request: rows stay stamped, up to the reading the handler took. *)
Lemma serve_stamped req db hi :
  stamped hi db ->
  Forall (fun c => hi <= _utc_now_iso c) (clock_of req) ->
  stamped (match clock_of req with c :: _ => _utc_now_iso c | [] => hi end)
          (snd (serve req db)).
Proof.
  intros Hs Hc.
  destruct req as [|clock body|clock id body|clock id body|id]; simpl in *.
  - rewrite list_tasks_eq. exact Hs.
  - inversion Hc as [|? ? Hle _]; subst.
    unfold post_tasks. destruct (TaskCreate.validate body) as [p|].
    + rewrite create_task_eq. simpl. intros x Hx. simpl in Hx.
      apply in_app_or in Hx. destruct Hx as [Hx|[<-|[]]].
      * specialize (Hs x Hx). lia.
      * simpl. lia.
    + simpl. now apply (stamped_weaken hi).
  - inversion Hc as [|? ? Hle _]; subst.
    unfold put_task. destruct (1 <=? id); [|now apply (stamped_weaken hi)].
    destruct (TaskUpdate.validate body) as [p|]; [|now apply (stamped_weaken hi)].
    destruct (Sql.select_by_id id db) as [old|] eqn:E.
    + rewrite (replace_task_found clock db id p old E). simpl.
      apply (stamped_rewrite_at hi); auto.
    + rewrite (replace_task_missing clock db id p E). simpl.
      now apply (stamped_weaken hi).
  - inversion Hc as [|? ? Hle _]; subst.
    unfold patch_task_complete.
    destruct (1 <=? id); [|now apply (stamped_weaken hi)].
    destruct (Body.completed body) as [c|]; [|now apply (stamped_weaken hi)].
    destruct (Sql.select_by_id id db) as [old|] eqn:E.
    + rewrite (set_task_completion_found clock db id c old E). simpl.
      apply (stamped_rewrite_at hi); auto.
    + rewrite (set_task_completion_missing clock db id c E). simpl.
      now apply (stamped_weaken hi).
  - unfold delete_task_route. destruct (1 <=? id); [|exact Hs].
    destruct (Sql.select_by_id id db) as [old|] eqn:E.
    + rewrite (delete_task_found db id old E). simpl.
      intros x Hx. simpl in Hx. apply filter_In in Hx. apply Hs. tauto.
    + now rewrite (delete_task_missing db id E).
Qed.

Lemma run_cons req rest db :
  run (req :: rest) db =
  (fst (serve req db) :: fst (run rest (snd (serve req db))),
   snd (run rest (snd (serve req db)))).
Proof.
  simpl. destruct (serve req db) as [resp db1]. simpl.
  destruct (run rest db1). reflexivity.
Qed.

Lemma run_stamped reqs : forall db hi,
  stamped hi db ->
  StronglySorted Z.le (clocks reqs) ->
  Forall (fun c => hi <= _utc_now_iso c) (clocks reqs) ->
  exists hi', stamped hi' (snd (run reqs db)).
Proof.
  induction reqs as [|req rest IH]; intros db hi Hs Hsorted Hall.
  - exists hi. exact Hs.
  - rewrite run_cons. simpl. unfold clocks in *. simpl in Hsorted, Hall.
    apply Forall_app in Hall. destruct Hall as [Hreq Hrest].
    pose proof (serve_stamped req db hi Hs Hreq) as Hstep.
    apply (IH _ _ Hstep).
    + clear -Hsorted. induction (clock_of req) as [|c l IHl]; simpl in *.
      * exact Hsorted.
      * inversion Hsorted; subst. now apply IHl.
    + destruct (clock_of req) as [|c l] eqn:Ec; [exact Hrest|].
      simpl in Hsorted. inversion Hsorted as [|? ? _ Hc]; subst.
      apply Forall_app in Hc. destruct Hc as [_ Hc].
      eapply Forall_impl; [|exact Hc]. simpl.
      intros c' Hcc'. now apply utc_now_iso_mono.
Qed.

End Stamps.

(** C7, as the code has it.  The handlers stamp rows with the wall clock, so
    the order of [created_at] and [updated_at] is the order of the readings:
    when the readings taken along a request sequence never decrease, every row
    of the resulting store has [updated_at >= created_at]. *)
Theorem updated_at_ge_created_at reqs r :
  StronglySorted Z.le (clocks reqs) ->
  In r (tasks (snd (run reqs (_init_db None)))) ->
  Row.updated_at r >= Row.created_at r.
Proof.
  intros Hsorted Hin.
  destruct (clocks reqs) as [|c0 cs] eqn:Ec.
  - destruct (run_stamped reqs (_init_db None) 0) as (hi & Hs).
    + intros x [].
    + rewrite Ec. constructor.
    + rewrite Ec. constructor.
    + specialize (Hs r Hin). lia.
  - destruct (run_stamped reqs (_init_db None) (_utc_now_iso c0)) as (hi & Hs).
    + intros x [].
    + rewrite Ec. exact Hsorted.
    + rewrite Ec. inversion Hsorted as [|? ? _ Hc]; subst.
      constructor; [lia|]. eapply Forall_impl; [|exact Hc].
      simpl. intros c' Hcc'. now apply utc_now_iso_mono.
    + specialize (Hs r Hin). lia.
Qed.

Lemma updated_at_ge_created_at_witness :
  Row.updated_at (Row.mk 1 "Buy bread" None 1 1000000 9000000) >=
  Row.created_at (Row.mk 1 "Buy bread" None 1 1000000 9000000).
Proof.
  apply (updated_at_ge_created_at
           [POST_tasks 1000001 buy_milk;
            PATCH_task_complete 5999999 1 (Body.mk None None (Some true));
            PUT_task 9000000 1 (Body.mk (Some "Buy bread"%string) None (Some true))]).
  - vm_compute. repeat constructor; discriminate.
  - vm_compute. left. reflexivity.
Defined.

(** C7 as stated fails when the clock is set back between two calls: a task
    created at second 10 and replaced at second 5 has [updated_at] before
    [created_at]. *)
Lemma updated_at_ge_created_at_counterexample :
  let file := snd (run [POST_tasks 10000000 buy_milk;
                        PUT_task 5000000 1
                          (Body.mk (Some "Buy milk"%string) None (Some true))]
                       (_init_db None)) in
  exists r, In r (tasks file) /\ ~ (Row.updated_at r >= Row.created_at r).
Proof.
  exists (Row.mk 1 "Buy milk" None 1 10000000 5000000).
  split; [left; reflexivity | vm_compute; intros H; apply H; reflexivity].
Qed.

(** ** Identifiers *)

Section Ids.

Lemma filter_all {A} (p : A -> bool) l :
  (forall x, In x l -> p x = true) -> filter p l = l.
Proof.
  induction l as [|x l IH]; simpl; intros H; [reflexivity|].
  rewrite (H x) by now left. f_equal. apply IH. intros y Hy. apply H. now right.
Qed.

Lemma ids_delete j db :
  ids_of (Sql.delete j db) = filter (fun i => negb (i =? j)) (ids_of db).
Proof.
  unfold ids_of, Sql.delete. simpl.
  induction (tasks db) as [|x l IH]; simpl; [reflexivity|].
  unfold Sql.has_id at 1. destruct (Row.id x =? j); simpl; now rewrite IH.
Qed.

Lemma create_task_outcome clock p db :
  fst (create_task clock p db) = Raise ValidationError \/
  exists t, fst (create_task clock p db) = Return t /\
            TaskOut.id t = Sql.new_rowid db.
Proof.
  rewrite create_task_eq. simpl.
  destruct (row_to_task_cases (created_row clock db p)) as [-> | ->].
  - right. eexists. split; reflexivity.
  - now left.
Qed.

Lemma serve_seq req db :
  sqlite_sequence db <= sqlite_sequence (snd (serve req db)) /\
  forall j, In j (issued_id req (fst (serve req db))) ->
            sqlite_sequence db < j /\ j = sqlite_sequence (snd (serve req db)).
Proof.
  destruct req as [|clock body|clock id body|clock id body|id]; simpl.
  - rewrite list_tasks_eq. simpl. split; [lia | tauto].
  - unfold post_tasks. destruct (TaskCreate.validate body) as [p|].
    + pose proof (create_task_outcome clock p db) as Ho.
      pose proof (new_rowid_gt_seq db) as Hgt.
      rewrite create_task_eq in *. simpl in *.
      split; [lia|]. intros j Hj.
      destruct Ho as [E | (t & E & Hid)]; rewrite E in Hj; simpl in Hj.
      * tauto.
      * destruct Hj as [<-|[]]. lia.
    + simpl. split; [lia | tauto].
  - unfold put_task. destruct (1 <=? id); [|simpl; split; [lia | tauto]].
    destruct (TaskUpdate.validate body) as [p|]; [|simpl; split; [lia | tauto]].
    destruct (Sql.select_by_id id db) as [old|] eqn:E.
    + rewrite (replace_task_found clock db id p old E). simpl.
      split; [lia | tauto].
    + rewrite (replace_task_missing clock db id p E). simpl.
      split; [lia | tauto].
  - unfold patch_task_complete.
    destruct (1 <=? id); [|simpl; split; [lia | tauto]].
    destruct (Body.completed body) as [c|]; [|simpl; split; [lia | tauto]].
    destruct (Sql.select_by_id id db) as [old|] eqn:E.
    + rewrite (set_task_completion_found clock db id c old E). simpl.
      split; [lia | tauto].
    + rewrite (set_task_completion_missing clock db id c E). simpl.
      split; [lia | tauto].
  - unfold delete_task_route. destruct (1 <=? id); [|simpl; split; [lia | tauto]].
    destruct (Sql.select_by_id id db) as [old|] eqn:E.
    + rewrite (delete_task_found db id old E). simpl. split; [lia | tauto].
    + rewrite (delete_task_missing db id E). simpl. split; [lia | tauto].
Qed.

Lemma serve_ids req db :
  store_ok db ->
  ids_of (snd (serve req db)) =
  filter (fun i => negb (removed_id req i)) (ids_of db) ++
  issued_id req (fst (serve req db)).
Proof.
  intros Hok.
  assert (Hkeep : forall l : list Z, filter (fun _ => negb false) l = l)
    by (intros l; now apply filter_all).
  destruct req as [|clock body|clock id body|clock id body|id]; simpl.
  - rewrite list_tasks_eq. simpl. now rewrite Hkeep, app_nil_r.
  - rewrite Hkeep. unfold post_tasks.
    destruct (TaskCreate.validate body) as [p|] eqn:E.
    + destruct (create_validate_some body p E) as [Ht Hd].
      rewrite create_task_eq. simpl.
      rewrite (row_to_task_ok (created_row clock db p)) by (split; assumption).
      unfold ids_of. simpl. now rewrite map_app.
    + simpl. now rewrite app_nil_r.
  - rewrite Hkeep, app_nil_r. unfold put_task.
    destruct (1 <=? id); [|reflexivity].
    destruct (TaskUpdate.validate body) as [p|]; [|reflexivity].
    destruct (Sql.select_by_id id db) as [old|] eqn:E.
    + rewrite (replace_task_found clock db id p old E). simpl.
      unfold ids_of. simpl. now apply ids_rewrite_at.
    + now rewrite (replace_task_missing clock db id p E).
  - rewrite Hkeep, app_nil_r. unfold patch_task_complete.
    destruct (1 <=? id); [|reflexivity].
    destruct (Body.completed body) as [c|]; [|reflexivity].
    destruct (Sql.select_by_id id db) as [old|] eqn:E.
    + rewrite (set_task_completion_found clock db id c old E). simpl.
      unfold ids_of. simpl. now apply ids_rewrite_at.
    + now rewrite (set_task_completion_missing clock db id c E).
  - rewrite app_nil_r. unfold delete_task_route.
    destruct (Z.leb_spec 1 id) as [Hge|Hlt].
    + destruct (Sql.select_by_id id db) as [old|] eqn:E.
      * rewrite (delete_task_found db id old E). simpl.
        rewrite (select_fits id db old E). rewrite ids_delete.
        apply filter_ext. intros i. now rewrite andb_true_r.
      * rewrite (delete_task_missing db id E). simpl.
        symmetry. apply filter_all. intros i Hi.
        apply in_map_iff in Hi. destruct Hi as (r & <- & Hr).
        apply negb_true_iff, andb_false_iff.
        destruct (Sql.fits_int64 id) eqn:Hfit; [left | now right].
        apply Z.eqb_neq. exact (proj1 (select_none id db Hfit) E r Hr).
    + simpl. symmetry. apply filter_all. intros i Hi.
      apply in_map_iff in Hi. destruct Hi as (r & <- & Hr).
      apply negb_true_iff, andb_false_iff. left. apply Z.eqb_neq.
      pose proof (ids_in_range db Hok r Hr). lia.
Qed.

Lemma run_issued reqs : forall db,
  sqlite_sequence db <= sqlite_sequence (snd (run reqs db)) /\
  Forall (fun j => sqlite_sequence db < j <= sqlite_sequence (snd (run reqs db)))
         (issued_ids reqs (fst (run reqs db))) /\
  StronglySorted Z.lt (issued_ids reqs (fst (run reqs db))).
Proof.
  induction reqs as [|req rest IH]; intros db.
  - simpl. split; [lia|]. split; constructor.
  - rewrite run_cons. simpl.
    destruct (serve_seq req db) as [Hmono Hnew].
    destruct (IH (snd (serve req db))) as (Hmono' & Hall & Hsorted).
    split; [lia|]. rewrite Forall_forall in Hall. split.
    + apply Forall_forall. intros j Hj. apply in_app_or in Hj.
      destruct Hj as [Hj|Hj].
      * specialize (Hnew j Hj). lia.
      * specialize (Hall j Hj). lia.
    + destruct (issued_id req (fst (serve req db))) as [|j l] eqn:Ej.
      * exact Hsorted.
      * assert (l = []) as ->.
        { clear -Ej. destruct req, (fst (serve _ db)); simpl in Ej;
            try discriminate; destruct o; simpl in Ej; congruence. }
        simpl. constructor; [exact Hsorted|].
        apply Forall_forall. intros k Hk. specialize (Hall k Hk).
        destruct (Hnew j (or_introl eq_refl)). lia.
Qed.

Lemma run_ids reqs : forall db i,
  store_ok db ->
  In i (ids_of (snd (run reqs db))) ->
  In i (ids_of db) \/ In i (issued_ids reqs (fst (run reqs db))).
Proof.
  induction reqs as [|req rest IH]; intros db i Hok Hin.
  - now left.
  - rewrite run_cons in *. simpl in *.
    destruct (IH _ i (store_ok_serve req db Hok) Hin) as [H|H].
    + rewrite (serve_ids req db Hok) in H. apply in_app_or in H.
      destruct H as [H|H].
      * left. apply filter_In in H. tauto.
      * right. apply in_or_app. now left.
    + right. apply in_or_app. now right.
Qed.

End Ids.

(** C8.  Along any request sequence served from the fresh table:
    the ids answered by successful creates are strictly increasing, hence
    pairwise distinct, and positive; the ids in the store are pairwise
    distinct, positive, and each was answered by a create; one more request
    changes the id column only by dropping the id a delete names and by
    appending the id a create was answered with, so no request rewrites an id;
    and every id answered by a later create is above every id the store holds,
    so the id of a row deleted afterwards is not handed out again. *)
Theorem task_ids_fresh_and_stable reqs :
  let resps := fst (run reqs (_init_db None)) in
  let file := snd (run reqs (_init_db None)) in
  StronglySorted Z.lt (issued_ids reqs resps) /\
  Forall (fun i => 0 < i) (issued_ids reqs resps) /\
  NoDup (ids_of file) /\
  (forall i, In i (ids_of file) -> 0 < i /\ In i (issued_ids reqs resps)) /\
  (forall req,
     ids_of (snd (serve req file)) =
     filter (fun i => negb (removed_id req i)) (ids_of file) ++
     issued_id req (fst (serve req file))) /\
  (forall later i j,
     In i (ids_of file) ->
     In j (issued_ids later (fst (run later file))) ->
     i < j).
Proof.
  intros resps file.
  assert (Hok : store_ok file) by (apply store_ok_run, store_ok_init).
  destruct (run_issued reqs (_init_db None)) as (_ & Hall & Hsorted).
  fold resps in Hall, Hsorted.
  split; [exact Hsorted|]. split.
  { eapply Forall_impl; [|exact Hall]. simpl. intros; lia. }
  split; [exact (ids_unique file Hok)|]. split.
  { intros i Hi. split.
    - apply in_map_iff in Hi. destruct Hi as (r & <- & Hr).
      pose proof (ids_in_range file Hok r Hr). lia.
    - destruct (run_ids reqs (_init_db None) i store_ok_init Hi) as [[]|H].
      exact H. }
  split; [intros req; now apply serve_ids|].
  intros later i j Hi Hj.
  destruct (run_issued later file) as (_ & Hlater & _).
  rewrite Forall_forall in Hlater. specialize (Hlater j Hj).
  apply in_map_iff in Hi. destruct Hi as (r & <- & Hr).
  pose proof (ids_in_range file Hok r Hr). lia.
Qed.

(** ** The same through the router *)

(** With a path id of at least 1 that is a 64-bit integer and a body that
    validates, the three routes answer a missing id exactly as their handlers
    do. *)
Lemma routes_missing_id clock id body payload completed file :
  1 <= id ->
  Sql.fits_int64 id = true ->
  Sql.select_by_id id file = None ->
  TaskUpdate.validate body = Some payload ->
  Body.completed body = Some completed ->
  put_task clock id body file = (Raise not_found, file) /\
  patch_task_complete clock id body file = (Raise not_found, file) /\
  delete_task_route id file = (Raise not_found, file).
Proof.
  intros Hge Hfit Hsel Hv Hc.
  unfold put_task, patch_task_complete, delete_task_route.
  rewrite (proj2 (Z.leb_le 1 id) Hge), Hv, Hc.
  rewrite <- (absent_exn_bound id Hfit). repeat split.
  - now apply replace_task_missing.
  - now apply set_task_completion_missing.
  - now apply delete_task_missing.
Qed.

(** A path id above 2^63 - 1 passes the [ge=1] guard and fails in sqlite3:
    the answer is the OverflowError, and the store is not touched. *)
Lemma routes_overflow clock id body payload completed file :
  9223372036854775807 < id ->
  TaskUpdate.validate body = Some payload ->
  Body.completed body = Some completed ->
  put_task clock id body file = (Raise OverflowError, file) /\
  patch_task_complete clock id body file = (Raise OverflowError, file) /\
  delete_task_route id file = (Raise OverflowError, file).
Proof.
  intros Hbig Hv Hc.
  assert (Hfit : Sql.fits_int64 id = false).
  { unfold Sql.fits_int64. apply andb_false_iff. right. apply Z.leb_gt. lia. }
  unfold put_task, patch_task_complete, delete_task_route.
  rewrite (proj2 (Z.leb_le 1 id)) by lia. rewrite Hv, Hc.
  rewrite <- (absent_exn_unbound id Hfit).
  pose proof (select_unbound id file Hfit) as Hsel. repeat split.
  - now apply replace_task_missing.
  - now apply set_task_completion_missing.
  - now apply delete_task_missing.
Qed.

(** A path id below 1 does not reach the handler: the answer is the
    request-validation error, and the store is not touched. *)
Lemma routes_reject_small_id clock id body file :
  id < 1 ->
  put_task clock id body file = (Raise RequestValidationError, file) /\
  patch_task_complete clock id body file = (Raise RequestValidationError, file) /\
  delete_task_route id file = (Raise RequestValidationError, file).
Proof.
  intros Hlt. unfold put_task, patch_task_complete, delete_task_route.
  rewrite (proj2 (Z.leb_gt 1 id) Hlt). repeat split.
Qed.

(** * Further properties of the handlers *)

(** ** Delete *)

Section DeleteFacts.

Lemma filter_other_ids_length i l old :
  NoDup (map Row.id l) -> In old l -> Row.id old = i ->
  S (List.length (filter (fun r => negb (Sql.has_id i r)) l)) = List.length l.
Proof.
  induction l as [|x l IH]; simpl; [tauto|].
  intros Hnd Hin Hid. inversion Hnd as [|? ? Hx Hl]; subst.
  destruct Hin as [->|Hin].
  - rewrite (proj2 (has_id_true _ old) eq_refl). simpl. f_equal.
    rewrite filter_all; [reflexivity|].
    intros y Hy. apply negb_true_iff, has_id_false. intros E. apply Hx.
    rewrite <- E. now apply in_map.
  - assert (Hne : Row.id x <> Row.id old).
    { intros E. apply Hx. rewrite E. now apply in_map. }
    rewrite (proj2 (has_id_false _ x) Hne). simpl. f_equal. now apply IH.
Qed.

Lemma select_after_delete i j db :
  Sql.select_by_id j (Sql.delete i db) =
  if j =? i then None else Sql.select_by_id j db.
Proof.
  unfold Sql.select_by_id.
  destruct (Sql.fits_int64 j); [|now destruct (j =? i)].
  unfold Sql.row_with_id, Sql.delete. simpl.
  induction (tasks db) as [|x l IH]; simpl.
  - now destruct (j =? i).
  - destruct (Sql.has_id i x) eqn:Ei; simpl.
    + rewrite IH. destruct (Z.eqb_spec j i) as [Ej|Ej]; [reflexivity|].
      apply has_id_true in Ei.
      now rewrite (proj2 (has_id_false j x)) by congruence.
    + destruct (Sql.has_id j x) eqn:Ej; [|exact IH].
      apply has_id_true in Ej. apply has_id_false in Ei.
      now rewrite (proj2 (Z.eqb_neq j i)) by congruence.
Qed.

End DeleteFacts.

(** X1.  In a store the service can be in, deleting a stored id answers with
    the empty success and removes that row and no other: the rows left are
    the other rows, the count drops by one, the id no longer has a row, and
    the sequence value stays. *)
Theorem delete_task_removes_one_row id file old :
  reachable file ->
  Sql.select_by_id id file = Some old ->
  exists file',
    delete_task id file = (Return tt, file') /\
    (forall r, In r (tasks file') <-> In r (tasks file) /\ r <> old) /\
    S (List.length (tasks file')) = List.length (tasks file) /\
    Sql.select_by_id id file' = None /\
    sqlite_sequence file' = sqlite_sequence file.
Proof.
  intros Hreach Hsel. pose proof (reachable_store_ok file Hreach) as Hok.
  destruct (select_some id file old Hsel) as [Hin Hid].
  exists (Sql.delete id file). rewrite (delete_task_found file id old Hsel).
  split; [reflexivity|]. split; [|split; [|split]].
  - intros r. simpl. rewrite filter_In, negb_true_iff, has_id_false.
    split; intros [Hr Hne]; split; try assumption.
    + intros ->. now apply Hne.
    + intros E. apply Hne.
      pose proof (select_unique id file r (select_fits id file old Hsel)
                    (ids_unique file Hok) Hr E). congruence.
  - simpl. apply (filter_other_ids_length id _ old); [exact (ids_unique file Hok) | exact Hin | exact Hid].
  - rewrite select_after_delete. now rewrite Z.eqb_refl.
  - reflexivity.
Qed.

Lemma delete_task_removes_one_row_witness :
  let file := snd (run three_tasks (_init_db None)) in
  exists file',
    delete_task 2 file = (Return tt, file') /\
    List.length (tasks file') = 2%nat /\
    Sql.select_by_id 2 file' = None.
Proof.
  intros file.
  destruct (delete_task_removes_one_row 2 file
              (Row.mk 2 "Buy milk" None 0 2000000 2000000))
    as (file' & H & _ & Hlen & Hnone & _).
  - exists three_tasks. reflexivity.
  - reflexivity.
  - exists file'. split; [exact H|]. split; [|exact Hnone].
    change (List.length (tasks file)) with 3%nat in Hlen. now injection Hlen.
Defined.

(** X2.  Whatever the store, once [delete_task] has removed an id, a second
    delete of it, a replace of it and a completion change of it all raise the
    404 and leave the store as the first delete left it. *)
Theorem deleted_id_is_gone clock id payload completed file old :
  Sql.select_by_id id file = Some old ->
  let file' := snd (delete_task id file) in
  fst (delete_task id file) = Return tt /\
  delete_task id file' = (Raise not_found, file') /\
  replace_task clock id payload file' = (Raise not_found, file') /\
  set_task_completion clock id completed file' = (Raise not_found, file').
Proof.
  intros Hsel file'. subst file'.
  rewrite (delete_task_found file id old Hsel). simpl.
  assert (Hnone : Sql.select_by_id id (Sql.delete id file) = None)
    by (rewrite select_after_delete; now rewrite Z.eqb_refl).
  rewrite <- (absent_exn_bound id (select_fits id file old Hsel)).
  repeat split.
  - now apply delete_task_missing.
  - now apply replace_task_missing.
  - now apply set_task_completion_missing.
Qed.

Lemma deleted_id_is_gone_witness :
  let file := snd (run three_tasks (_init_db None)) in
  delete_task 3 (snd (delete_task 3 file)) =
    (Raise not_found, snd (delete_task 3 file)).
Proof.
  intros file.
  destruct (deleted_id_is_gone 0 3 (TaskUpdate.mk "x" None true) true file
              (Row.mk 3 "Buy milk" None 0 3000000 3000000))
    as (_ & H & _).
  - reflexivity.
  - exact H.
Defined.

(** ** Listing after a change *)

Section ListingFacts.

Lemma list_tasks_ok db :
  store_ok db ->
  list_tasks db =
  (Return {| TaskListResponse.tasks := map task_of_row (Sql.select_all_desc db) |},
   db).
Proof.
  intros Hok. rewrite list_tasks_eq, rows_to_tasks_ok; [reflexivity|].
  eapply Permutation_Forall; [symmetry; apply select_all_desc_perm|].
  exact (rows_valid db Hok).
Qed.

Lemma insert_desc_front r l :
  (forall y, In y l -> Row.id y <= Row.id r) -> Sql.insert_desc r l = r :: l.
Proof.
  destruct l as [|x l]; simpl; [reflexivity|].
  intros H. now rewrite (proj2 (Z.leb_le _ _) (H x (or_introl eq_refl))).
Qed.

Lemma insert_desc_desc r l : desc l -> desc (Sql.insert_desc r l).
Proof.
  unfold desc. induction l as [|x l IH]; simpl; intros Hs.
  - repeat constructor.
  - inversion Hs as [|? ? Hl Hx]; subst.
    destruct (Z.leb_spec (Row.id x) (Row.id r)) as [Hle|Hgt].
    + constructor; [exact Hs|]. constructor; [exact Hle|].
      eapply Forall_impl; [|exact Hx]. simpl. intros; lia.
    + constructor; [now apply IH|].
      eapply Permutation_Forall; [symmetry; apply insert_desc_perm|].
      constructor; [lia | exact Hx].
Qed.

Lemma sort_desc l : desc (fold_right Sql.insert_desc [] l).
Proof.
  induction l as [|x l IH]; simpl; [constructor | now apply insert_desc_desc].
Qed.

Lemma insert_desc_filter p r l :
  desc l ->
  filter p (Sql.insert_desc r l) =
  if p r then Sql.insert_desc r (filter p l) else filter p l.
Proof.
  unfold desc. induction l as [|x l IH]; intros Hs.
  - simpl. now destruct (p r).
  - inversion Hs as [|? ? Hl Hx]; subst. simpl.
    destruct (Z.leb_spec (Row.id x) (Row.id r)) as [Hle|Hgt].
    + change (filter p (r :: x :: l))
        with (if p r then r :: filter p (x :: l) else filter p (x :: l)).
      destruct (p r); [|reflexivity].
      symmetry. apply insert_desc_front. intros y Hy.
      apply filter_In in Hy. destruct Hy as [[<-|Hy] _]; [exact Hle|].
      rewrite Forall_forall in Hx. specialize (Hx y Hy). simpl in Hx. lia.
    + simpl. rewrite (IH Hl). destruct (p x), (p r); try reflexivity.
      simpl. now rewrite (proj2 (Z.leb_gt _ _) Hgt).
Qed.

Lemma sort_filter p l :
  fold_right Sql.insert_desc [] (filter p l) =
  filter p (fold_right Sql.insert_desc [] l).
Proof.
  induction l as [|x l IH]; simpl; [reflexivity|].
  rewrite insert_desc_filter by apply sort_desc.
  destruct (p x); simpl; now rewrite IH.
Qed.

Lemma sort_snoc_max x l :
  (forall r, In r l -> Row.id r < Row.id x) ->
  fold_right Sql.insert_desc [] (l ++ [x]) =
  x :: fold_right Sql.insert_desc [] l.
Proof.
  intros Hmax. rewrite fold_right_app. simpl.
  generalize (@nil Row.t) as acc.
  induction l as [|y l IH]; intros acc; simpl; [reflexivity|].
  rewrite IH by (intros r Hr; apply Hmax; now right).
  simpl. assert (Row.id y < Row.id x) by (apply Hmax; now left).
  now rewrite (proj2 (Z.leb_gt (Row.id x) (Row.id y))) by lia.
Qed.

End ListingFacts.

(** X3.  In a store the service can be in, the listing taken after a stored
    id was deleted is the listing taken before with the entry of that id
    struck out: no entry carries the id, and the other tasks are all there in
    the same order. *)
Theorem listing_after_delete id file old :
  reachable file ->
  Sql.select_by_id id file = Some old ->
  exists ts,
    list_tasks file = (Return {| TaskListResponse.tasks := ts |}, file) /\
    In (task_of_row old) ts /\
    list_tasks (snd (delete_task id file)) =
      (Return {| TaskListResponse.tasks :=
                   filter (fun t => negb (TaskOut.id t =? id)) ts |},
       snd (delete_task id file)) /\
    ~ In id (map TaskOut.id (filter (fun t => negb (TaskOut.id t =? id)) ts)).
Proof.
  intros Hreach Hsel. pose proof (reachable_store_ok file Hreach) as Hok.
  destruct (select_some id file old Hsel) as [Hin Hid].
  exists (map task_of_row (Sql.select_all_desc file)).
  split; [now apply list_tasks_ok|]. split.
  { apply in_map. eapply Permutation_in; [symmetry; apply select_all_desc_perm|].
    exact Hin. }
  rewrite (delete_task_found file id old Hsel). simpl. split.
  - rewrite list_tasks_ok by now apply store_ok_delete.
    unfold Sql.select_all_desc, Sql.delete. simpl. rewrite sort_filter.
    do 3 f_equal.
    induction (fold_right Sql.insert_desc [] (tasks file)) as [|x l IH];
      simpl; [reflexivity|].
    unfold Sql.has_id at 1. destruct (Row.id x =? id); simpl; now rewrite IH.
  - intros H. apply in_map_iff in H. destruct H as (t & Ht & H).
    apply filter_In in H. destruct H as [_ H].
    apply negb_true_iff, Z.eqb_neq in H. contradiction.
Qed.

Lemma listing_after_delete_witness :
  let file := snd (run three_tasks (_init_db None)) in
  exists ts,
    fst (list_tasks file) = Return {| TaskListResponse.tasks := ts |} /\
    map TaskOut.id ts = [3; 2; 1] /\
    fst (list_tasks (snd (delete_task 2 file))) =
      Return {| TaskListResponse.tasks :=
                  filter (fun t => negb (TaskOut.id t =? 2)) ts |} /\
    map TaskOut.id (filter (fun t => negb (TaskOut.id t =? 2)) ts) = [3; 1].
Proof.
  intros file.
  destruct (listing_after_delete 2 file (Row.mk 2 "Buy milk" None 0 2000000 2000000))
    as (ts & H1 & _ & H2 & _).
  - exists three_tasks. reflexivity.
  - reflexivity.
  - exists ts. rewrite H1, H2. simpl.
    assert (E : fst (list_tasks file) = Return {| TaskListResponse.tasks := ts |})
      by now rewrite H1.
    vm_compute in E. injection E as <-. repeat split.
Defined.

(** X4.  For any store, a create that is accepted puts its task at the head
    of the next listing, the previous listing following unchanged. *)
Theorem listing_after_create clock body payload file ts :
  TaskCreate.validate body = Some payload ->
  list_tasks file = (Return {| TaskListResponse.tasks := ts |}, file) ->
  exists task file',
    post_tasks clock body file = (Return task, file') /\
    list_tasks file' =
      (Return {| TaskListResponse.tasks := task :: ts |}, file').
Proof.
  intros Hv Hlist.
  destruct (create_validate_some body payload Hv) as [Ht Hd].
  set (row := created_row clock file payload).
  assert (Hrow : _row_to_task row = Return (task_of_row row))
    by (apply row_to_task_ok; split; assumption).
  exists (task_of_row row),
         {| tasks := tasks file ++ [row]; sqlite_sequence := Sql.new_rowid file |}.
  unfold post_tasks. rewrite Hv, create_task_eq. fold row. rewrite Hrow.
  split; [reflexivity|].
  rewrite list_tasks_eq in *. unfold Sql.select_all_desc in *. simpl.
  rewrite sort_snoc_max
    by (intros r Hr; pose proof (new_rowid_fresh file r Hr); simpl; lia).
  simpl. rewrite Hrow.
  destruct (rows_to_tasks (fold_right Sql.insert_desc [] (tasks file)));
    [|discriminate].
  now injection Hlist as ->.
Qed.

Lemma listing_after_create_witness :
  let file := snd (run three_tasks (_init_db None)) in
  exists task file',
    post_tasks 4000000 buy_milk file = (Return task, file') /\
    map TaskOut.id
      (match fst (list_tasks file') with
       | Return l => TaskListResponse.tasks l
       | Raise _ => []
       end) = [4; 3; 2; 1].
Proof.
  intros file.
  destruct (listing_after_create 4000000 buy_milk
              (TaskCreate.mk "Buy milk" None false) file
              (map task_of_row (Sql.select_all_desc file)))
    as (task & file' & H1 & H2).
  - reflexivity.
  - reflexivity.
  - exists task, file'. split; [exact H1|]. rewrite H2. simpl.
    assert (E : fst (post_tasks 4000000 buy_milk file) = Return task)
      by now rewrite H1.
    vm_compute in E. injection E as <-. reflexivity.
Defined.

(** ** What a served request can answer *)

Section ServeFacts.

Lemma set_completed_ok done updated r :
  row_ok r -> row_ok (Sql.set_completed done updated r).
Proof. intros H. exact H. Qed.

Lemma absent_exn_cases id :
  1 <= id ->
  absent_exn id = not_found \/
  (absent_exn id = OverflowError /\ 9223372036854775807 < id).
Proof.
  intros Hge. unfold absent_exn, Sql.fits_int64.
  destruct (Z.leb_spec id 9223372036854775807) as [Hle|Hgt].
  - left. now rewrite (proj2 (Z.leb_le _ id)) by lia.
  - right. rewrite andb_false_r. split; [reflexivity | lia].
Qed.

(** In a store that meets the invariant, a request is answered with a value,
    with the 404, with the request-validation error or, for a path id above
    2^63 - 1, with the OverflowError; the last three leave the store alone. *)
Lemma serve_raised req db e :
  store_ok db ->
  raised (fst (serve req db)) = Some e ->
  (e = not_found \/ e = RequestValidationError \/
   (e = OverflowError /\
    exists i, target req = Some i /\ 9223372036854775807 < i)) /\
  snd (serve req db) = db.
Proof.
  intros Hok.
  assert (Habs : forall id, 1 <= id -> forall e',
    absent_exn id = e' ->
    e' = not_found \/ e' = RequestValidationError \/
    (e' = OverflowError /\ 9223372036854775807 < id)).
  { intros id Hge e' <-. destruct (absent_exn_cases id Hge) as [->|[-> H]]; auto. }
  destruct req as [|clock body|clock id body|clock id body|id]; simpl.
  - rewrite (list_tasks_ok db Hok). simpl. discriminate.
  - unfold post_tasks. destruct (TaskCreate.validate body) as [p|] eqn:E.
    + destruct (create_validate_some body p E) as [Ht Hd].
      rewrite create_task_eq.
      rewrite (row_to_task_ok (created_row clock db p)) by (split; assumption).
      simpl. discriminate.
    + simpl. intros [= <-]. auto.
  - unfold put_task.
    destruct (Z.leb_spec 1 id) as [Hge|Hlt]; [|simpl; intros [= <-]; auto].
    destruct (TaskUpdate.validate body) as [p|] eqn:E;
      [|simpl; intros [= <-]; auto].
    destruct (Sql.select_by_id id db) as [old|] eqn:Es.
    + rewrite (replace_task_found clock db id p old Es).
      rewrite row_to_task_ok by exact (update_validate_some body p E).
      simpl. discriminate.
    + rewrite (replace_task_missing clock db id p Es). simpl.
      intros [= He]. split; [|reflexivity].
      destruct (Habs id Hge e He) as [H|[H|[H Hbig]]]; auto.
      right. right. split; [exact H|]. exists id. auto.
  - unfold patch_task_complete.
    destruct (Z.leb_spec 1 id) as [Hge|Hlt]; [|simpl; intros [= <-]; auto].
    destruct (Body.completed body) as [c|]; [|simpl; intros [= <-]; auto].
    destruct (Sql.select_by_id id db) as [old|] eqn:Es.
    + rewrite (set_task_completion_found clock db id c old Es).
      destruct (select_some id db old Es) as [Hin _].
      pose proof (rows_valid db Hok) as Hall. rewrite Forall_forall in Hall.
      rewrite row_to_task_ok by (apply set_completed_ok; now apply Hall).
      simpl. discriminate.
    + rewrite (set_task_completion_missing clock db id c Es). simpl.
      intros [= He]. split; [|reflexivity].
      destruct (Habs id Hge e He) as [H|[H|[H Hbig]]]; auto.
      right. right. split; [exact H|]. exists id. auto.
  - unfold delete_task_route.
    destruct (Z.leb_spec 1 id) as [Hge|Hlt]; [|simpl; intros [= <-]; auto].
    destruct (Sql.select_by_id id db) as [old|] eqn:Es.
    + rewrite (delete_task_found db id old Es). simpl. discriminate.
    + rewrite (delete_task_missing db id Es). simpl.
      intros [= He]. split; [|reflexivity].
      destruct (Habs id Hge e He) as [H|[H|[H Hbig]]]; auto.
      right. right. split; [exact H|]. exists id. auto.
Qed.

Lemma serve_count req db :
  store_ok db ->
  (List.length (tasks (snd (serve req db))) + deleted_one req (fst (serve req db)) =
   List.length (tasks db) + created_one req (fst (serve req db)))%nat.
Proof.
  intros Hok.
  destruct req as [|clock body|clock id body|clock id body|id]; simpl.
  - rewrite (list_tasks_ok db Hok). simpl. lia.
  - unfold post_tasks. destruct (TaskCreate.validate body) as [p|] eqn:E.
    + destruct (create_validate_some body p E) as [Ht Hd].
      rewrite create_task_eq.
      rewrite (row_to_task_ok (created_row clock db p)) by (split; assumption).
      simpl. rewrite length_app. simpl. lia.
    + simpl. lia.
  - unfold put_task. destruct (1 <=? id); [|simpl; lia].
    destruct (TaskUpdate.validate body) as [p|] eqn:E; [|simpl; lia].
    destruct (Sql.select_by_id id db) as [old|] eqn:Es.
    + rewrite (replace_task_found clock db id p old Es). simpl.
      unfold rewrite_at. rewrite length_map. lia.
    + rewrite (replace_task_missing clock db id p Es). simpl. lia.
  - unfold patch_task_complete. destruct (1 <=? id); [|simpl; lia].
    destruct (Body.completed body) as [c|]; [|simpl; lia].
    destruct (Sql.select_by_id id db) as [old|] eqn:Es.
    + rewrite (set_task_completion_found clock db id c old Es). simpl.
      unfold rewrite_at. rewrite length_map. lia.
    + rewrite (set_task_completion_missing clock db id c Es). simpl. lia.
  - unfold delete_task_route. destruct (1 <=? id); [|simpl; lia].
    destruct (Sql.select_by_id id db) as [old|] eqn:Es.
    + rewrite (delete_task_found db id old Es). simpl.
      destruct (select_some id db old Es) as [Hin Hid].
      pose proof (filter_other_ids_length id (tasks db) old
                    (ids_unique db Hok) Hin Hid). lia.
    + rewrite (delete_task_missing db id Es). simpl. lia.
Qed.

Lemma run_count reqs : forall db,
  store_ok db ->
  (List.length (tasks (snd (run reqs db))) +
   tally deleted_one reqs (fst (run reqs db)) =
   List.length (tasks db) + tally created_one reqs (fst (run reqs db)))%nat.
Proof.
  induction reqs as [|req rest IH]; intros db Hok.
  - simpl. lia.
  - rewrite run_cons. simpl.
    pose proof (serve_count req db Hok).
    pose proof (IH _ (store_ok_serve req db Hok)). lia.
Qed.

End ServeFacts.

(** X5.  In a store the service can be in, a response that carries an
    exception carries the 404 "Task not found", the request-validation error
    or sqlite3's OverflowError, the last only for a request whose path id is
    above 2^63 - 1; it never carries the model's ValidationError or an
    AssertionError.  In all three cases the store is exactly as it was before
    the request. *)
Theorem errors_leave_store_unchanged req file e :
  reachable file ->
  raised (fst (serve req file)) = Some e ->
  (e = HTTPException 404 "Task not found" \/ e = RequestValidationError \/
   e = OverflowError) /\
  (e = OverflowError ->
   exists i, target req = Some i /\ 9223372036854775807 < i) /\
  snd (serve req file) = file.
Proof.
  intros Hreach Hraised.
  destruct (serve_raised req file e (reachable_store_ok file Hreach) Hraised)
    as [[H|[H|[H Hi]]] Hsame]; subst e; repeat split; auto; discriminate.
Qed.

Lemma errors_leave_store_unchanged_witness :
  let file := snd (run three_tasks (_init_db None)) in
  snd (serve (PUT_task 0 7 (Body.mk (Some "x"%string) None (Some true))) file) = file /\
  snd (serve (DELETE_task 9223372036854775808) file) = file.
Proof.
  intros file. split.
  - apply (errors_leave_store_unchanged
             (PUT_task 0 7 (Body.mk (Some "x"%string) None (Some true))) file
             (HTTPException 404 "Task not found")).
    + exists three_tasks. reflexivity.
    + reflexivity.
  - apply (errors_leave_store_unchanged
             (DELETE_task 9223372036854775808) file OverflowError).
    + exists three_tasks. reflexivity.
    + reflexivity.
Defined.

(** X6.  Along any request sequence served from the fresh table, the number
    of rows in the store is the number of creates answered with a task minus
    the number of deletes answered with the empty success. *)
Theorem row_count_is_creates_minus_deletes reqs :
  let resps := fst (run reqs (_init_db None)) in
  let file := snd (run reqs (_init_db None)) in
  (List.length (tasks file) + tally deleted_one reqs resps =
   tally created_one reqs resps)%nat.
Proof.
  intros resps file. exact (run_count reqs (_init_db None) store_ok_init).
Qed.

(** ** The ids in order of issue *)

Section Consecutive.

Lemma last_rowid_in l m :
  Sql.last_rowid l = Some m -> exists r, In r l /\ Row.id r = m.
Proof.
  revert m. induction l as [|x l IH]; simpl; [discriminate|].
  intros m. destruct (Sql.last_rowid l) as [k|].
  - intros [= <-]. destruct (Z.max_spec (Row.id x) k) as [[_ ->]|[_ ->]].
    + destruct (IH k eq_refl) as (r & Hr & Hid). exists r. auto.
    + exists x. auto.
  - intros [= <-]. exists x. auto.
Qed.

Lemma new_rowid_next db :
  store_ok db -> 0 <= sqlite_sequence db ->
  Sql.new_rowid db = sqlite_sequence db + 1.
Proof.
  intros Hok Hseq. unfold Sql.new_rowid.
  destruct (Sql.last_rowid (tasks db)) as [m|] eqn:E.
  - destruct (last_rowid_in _ _ E) as (r & Hr & <-).
    pose proof (ids_in_range db Hok r Hr).
    destruct (Z.ltb_spec (Row.id r + 1) (sqlite_sequence db + 1)); lia.
  - destruct (Z.ltb_spec 1 (sqlite_sequence db + 1)); lia.
Qed.

Lemma serve_issue_next req db :
  store_ok db -> 0 <= sqlite_sequence db ->
  (issued_id req (fst (serve req db)) = [] /\
   sqlite_sequence (snd (serve req db)) = sqlite_sequence db) \/
  (issued_id req (fst (serve req db)) = [sqlite_sequence db + 1] /\
   sqlite_sequence (snd (serve req db)) = sqlite_sequence db + 1).
Proof.
  intros Hok Hseq.
  destruct req as [|clock body|clock id body|clock id body|id]; simpl.
  - left. rewrite list_tasks_eq. auto.
  - unfold post_tasks. destruct (TaskCreate.validate body) as [p|] eqn:E.
    + right. destruct (create_validate_some body p E) as [Ht Hd].
      rewrite create_task_eq.
      rewrite (row_to_task_ok (created_row clock db p)) by (split; assumption).
      simpl. now rewrite (new_rowid_next db Hok Hseq).
    + left. auto.
  - left. unfold put_task. destruct (1 <=? id); [|auto].
    destruct (TaskUpdate.validate body) as [p|]; [|auto].
    destruct (Sql.select_by_id id db) as [old|] eqn:Es.
    + rewrite (replace_task_found clock db id p old Es). auto.
    + rewrite (replace_task_missing clock db id p Es). auto.
  - left. unfold patch_task_complete. destruct (1 <=? id); [|auto].
    destruct (Body.completed body) as [c|]; [|auto].
    destruct (Sql.select_by_id id db) as [old|] eqn:Es.
    + rewrite (set_task_completion_found clock db id c old Es). auto.
    + rewrite (set_task_completion_missing clock db id c Es). auto.
  - left. unfold delete_task_route. destruct (1 <=? id); [|auto].
    destruct (Sql.select_by_id id db) as [old|] eqn:Es.
    + rewrite (delete_task_found db id old Es). auto.
    + rewrite (delete_task_missing db id Es). auto.
Qed.

Lemma run_consecutive reqs : forall db,
  store_ok db -> 0 <= sqlite_sequence db ->
  let issued := issued_ids reqs (fst (run reqs db)) in
  issued = map (fun k => sqlite_sequence db + Z.of_nat k)
               (seq 1 (List.length issued)) /\
  sqlite_sequence (snd (run reqs db)) =
    sqlite_sequence db + Z.of_nat (List.length issued).
Proof.
  induction reqs as [|req rest IH]; intros db Hok Hseq.
  - simpl. split; [reflexivity | lia].
  - rewrite run_cons. cbv zeta. simpl fst. simpl snd. simpl issued_ids.
    pose proof (store_ok_serve req db Hok) as Hok1.
    destruct (serve_issue_next req db Hok Hseq) as [[Hi Hs]|[Hi Hs]];
      rewrite Hi; simpl app.
    + destruct (IH (snd (serve req db)) Hok1 ltac:(lia)) as [H1 H2].
      rewrite Hs in H1, H2. split; assumption.
    + destruct (IH (snd (serve req db)) Hok1 ltac:(lia)) as [H1 H2].
      rewrite Hs in H1, H2.
      set (issued := issued_ids rest (fst (run rest (snd (serve req db))))) in *.
      simpl List.length. split.
      * change (seq 1 (S (List.length issued)))
          with (1%nat :: seq 2 (List.length issued)).
        cbn [map]. apply (f_equal2 cons); [lia|].
        rewrite H1 at 1. rewrite <- (seq_shift (List.length issued) 1), map_map.
        apply map_ext. intros k. lia.
      * rewrite H2. lia.
Qed.

End Consecutive.

(** X7.  Along any request sequence served from the fresh table, the creates
    that are answered with a task receive the ids 1, 2, 3, ... in that order,
    without gaps, and the sequence value of the store is the number of ids
    issued so far: a delete or a rejected request does not consume an id. *)
Theorem ids_are_issued_consecutively reqs :
  let resps := fst (run reqs (_init_db None)) in
  let file := snd (run reqs (_init_db None)) in
  issued_ids reqs resps =
    map Z.of_nat (seq 1 (List.length (issued_ids reqs resps))) /\
  sqlite_sequence file = Z.of_nat (List.length (issued_ids reqs resps)) /\
  Sql.new_rowid file = Z.of_nat (S (List.length (issued_ids reqs resps))).
Proof.
  intros resps file.
  destruct (run_consecutive reqs (_init_db None) store_ok_init ltac:(simpl; lia))
    as [H1 H2].
  fold resps in H1, H2. fold file in H2. simpl in H1, H2.
  split; [|split].
  - rewrite H1 at 1. apply map_ext. intros k. lia.
  - exact H2.
  - rewrite new_rowid_next.
    + rewrite H2. lia.
    + apply store_ok_run, store_ok_init.
    + rewrite H2. lia.
Qed.

(** ** The creation time of a task *)

Section Origin.

(** Where a row of the store after a request comes from: a row of the store
    before with the same id and creation time, or an id above the sequence
    value the store had. *)
Lemma serve_origin req db r' :
  In r' (tasks (snd (serve req db))) ->
  (exists r, In r (tasks db) /\ Row.id r = Row.id r' /\
             Row.created_at r = Row.created_at r') \/
  sqlite_sequence db < Row.id r'.
Proof.
  assert (Hsame : In r' (tasks db) ->
    (exists r, In r (tasks db) /\ Row.id r = Row.id r' /\
               Row.created_at r = Row.created_at r') \/
    sqlite_sequence db < Row.id r') by (intros H; left; exists r'; auto).
  assert (Hrw : forall i g,
    (forall r, Row.id (g r) = Row.id r /\ Row.created_at (g r) = Row.created_at r) ->
    In r' (rewrite_at i g (tasks db)) ->
    (exists r, In r (tasks db) /\ Row.id r = Row.id r' /\
               Row.created_at r = Row.created_at r') \/
    sqlite_sequence db < Row.id r').
  { intros i g Hg Hin. left. unfold rewrite_at in Hin. apply in_map_iff in Hin.
    destruct Hin as (r & <- & Hr). exists r. split; [exact Hr|].
    destruct (Sql.has_id i r); [destruct (Hg r); split; congruence | auto]. }
  destruct req as [|clock body|clock id body|clock id body|id]; simpl.
  - rewrite list_tasks_eq. exact Hsame.
  - unfold post_tasks. destruct (TaskCreate.validate body) as [p|]; [|exact Hsame].
    rewrite create_task_eq. simpl. intros Hin. apply in_app_or in Hin.
    destruct Hin as [Hin|[<-|[]]]; [now apply Hsame|].
    right. simpl. apply new_rowid_gt_seq.
  - unfold put_task. destruct (1 <=? id); [|exact Hsame].
    destruct (TaskUpdate.validate body) as [p|]; [|exact Hsame].
    destruct (Sql.select_by_id id db) as [old|] eqn:Es.
    + rewrite (replace_task_found clock db id p old Es). simpl.
      apply Hrw. intros r. split; reflexivity.
    + rewrite (replace_task_missing clock db id p Es). exact Hsame.
  - unfold patch_task_complete. destruct (1 <=? id); [|exact Hsame].
    destruct (Body.completed body) as [c|]; [|exact Hsame].
    destruct (Sql.select_by_id id db) as [old|] eqn:Es.
    + rewrite (set_task_completion_found clock db id c old Es). simpl.
      apply Hrw. intros r. split; reflexivity.
    + rewrite (set_task_completion_missing clock db id c Es). exact Hsame.
  - unfold delete_task_route. destruct (1 <=? id); [|exact Hsame].
    destruct (Sql.select_by_id id db) as [old|] eqn:Es.
    + rewrite (delete_task_found db id old Es). simpl. intros Hin.
      apply filter_In in Hin. apply Hsame. tauto.
    + rewrite (delete_task_missing db id Es). exact Hsame.
Qed.

Lemma run_origin reqs : forall db r',
  In r' (tasks (snd (run reqs db))) ->
  (exists r, In r (tasks db) /\ Row.id r = Row.id r' /\
             Row.created_at r = Row.created_at r') \/
  sqlite_sequence db < Row.id r'.
Proof.
  induction reqs as [|req rest IH]; intros db r' Hin.
  - left. exists r'. auto.
  - rewrite run_cons in Hin. simpl in Hin.
    destruct (serve_seq req db) as [Hmono _].
    destruct (IH _ _ Hin) as [(r1 & Hr1 & Hid & Hc)|Hgt]; [|right; lia].
    destruct (serve_origin req db r1 Hr1) as [(r & Hr & Hid' & Hc')|Hgt].
    + left. exists r. repeat split; congruence.
    + right. lia.
Qed.

End Origin.

(** X8.  In a store the service can be in, the creation time of a stored task
    is fixed for good: whatever requests follow, any row that carries the
    task's id afterwards has the creation time the task has now.  (Ids are not
    handed out twice, so such a row is the same task.) *)
Theorem created_at_never_changes file later r r' :
  reachable file ->
  In r (tasks file) ->
  In r' (tasks (snd (run later file))) ->
  Row.id r' = Row.id r ->
  Row.created_at r' = Row.created_at r.
Proof.
  intros Hreach Hr Hr' Hid. pose proof (reachable_store_ok file Hreach) as Hok.
  destruct (run_origin later file r' Hr') as [(r0 & Hr0 & Hid0 & Hc0)|Hgt].
  - pose proof (same_id_same_row file r r0 (ids_unique file Hok) Hr Hr0
                  ltac:(congruence)) as E.
    congruence.
  - pose proof (ids_in_range file Hok r Hr). lia.
Qed.

Lemma created_at_never_changes_witness :
  Row.created_at (Row.mk 1 "Buy bread" None 1 1000000 9000000) =
  Row.created_at (Row.mk 1 "Buy milk" None 0 1000000 1000000).
Proof.
  apply (created_at_never_changes
           (snd (run three_tasks (_init_db None)))
           [PATCH_task_complete 5000000 1 (Body.mk None None (Some true));
            DELETE_task 2;
            PUT_task 9000000 1 (Body.mk (Some "Buy bread"%string) None (Some true));
            POST_tasks 9500000 buy_milk]).
  - exists three_tasks. reflexivity.
  - vm_compute. left. reflexivity.
  - vm_compute. left. reflexivity.
  - reflexivity.
Defined.

(** ** Which requests are rejected before the handler *)

Section Rejection.

Lemma title_ok_false s :
  TaskBase.title_ok s = false <->
  (String.length s = 0 \/ 200 < String.length s)%nat.
Proof.
  unfold TaskBase.title_ok. rewrite andb_false_iff, !Nat.leb_gt. lia.
Qed.

Lemma description_ok_false d :
  TaskBase.description_ok d = false <->
  exists s, d = Some s /\ (2000 < String.length s)%nat.
Proof.
  destruct d as [s|]; simpl.
  - rewrite Nat.leb_gt. split.
    + intros H. exists s. auto.
    + intros (s' & [= <-] & H). exact H.
  - split; [discriminate | intros (s & Hs & _); discriminate].
Qed.

Lemma body_description_long b :
  (exists s, match Body.description b with Some d => d | None => None end = Some s /\
             (2000 < String.length s)%nat) <->
  (exists d, Body.description b = Some (Some d) /\ (2000 < String.length d)%nat).
Proof.
  destruct (Body.description b) as [[d|]|]; split; intros (s & Hs & Hlen);
    try discriminate; exists s; split; congruence.
Qed.

Lemma create_validate_none b :
  TaskCreate.validate b = None <->
  Body.title b = None \/
  (exists t, Body.title b = Some t /\
             (String.length t = 0 \/ 200 < String.length t)%nat) \/
  (exists d, Body.description b = Some (Some d) /\ (2000 < String.length d)%nat).
Proof.
  unfold TaskCreate.validate. rewrite <- body_description_long.
  destruct (Body.title b) as [t|].
  - destruct (_ && _) eqn:E.
    + apply andb_true_iff in E. destruct E as [Et Ed]. split; [discriminate|].
      intros [H|[(t' & [= <-] & H)|H]].
      * discriminate.
      * apply title_ok_false in H. congruence.
      * apply description_ok_false in H. congruence.
    + split; [intros _|reflexivity]. apply andb_false_iff in E.
      destruct E as [E|E].
      * right. left. exists t. split; [reflexivity | now apply title_ok_false].
      * right. right. now apply description_ok_false.
  - split; [auto | reflexivity].
Qed.

Lemma update_validate_none b :
  TaskUpdate.validate b = None <->
  Body.title b = None \/ Body.completed b = None \/
  (exists t, Body.title b = Some t /\
             (String.length t = 0 \/ 200 < String.length t)%nat) \/
  (exists d, Body.description b = Some (Some d) /\ (2000 < String.length d)%nat).
Proof.
  unfold TaskUpdate.validate. rewrite <- body_description_long.
  destruct (Body.title b) as [t|]; [|split; [auto | reflexivity]].
  destruct (Body.completed b) as [c|]; [|split; [auto | reflexivity]].
  destruct (_ && _) eqn:E.
  - apply andb_true_iff in E. destruct E as [Et Ed]. split; [discriminate|].
    intros [H|[H|[(t' & [= <-] & H)|H]]]; try discriminate.
    + apply title_ok_false in H. congruence.
    + apply description_ok_false in H. congruence.
  - split; [intros _|reflexivity]. apply andb_false_iff in E.
    destruct E as [E|E].
    + right. right. left. exists t. split; [reflexivity | now apply title_ok_false].
    + right. right. right. now apply description_ok_false.
Qed.

(** The handlers themselves never raise the request-validation error. *)
Lemma handlers_never_422 clock id created replaced completed file :
  fst (create_task clock created file) <> Raise RequestValidationError /\
  fst (replace_task clock id replaced file) <> Raise RequestValidationError /\
  fst (set_task_completion clock id completed file) <> Raise RequestValidationError /\
  fst (delete_task id file) <> Raise RequestValidationError.
Proof.
  assert (Hconv : forall row, _row_to_task row <> Raise RequestValidationError).
  { intros row. destruct (row_to_task_cases row) as [-> | ->]; discriminate. }
  assert (Habs : forall A, @Raise A (absent_exn id) <> Raise RequestValidationError).
  { intros A. unfold absent_exn. destruct (Sql.fits_int64 id); discriminate. }
  split; [|split; [|split]].
  - rewrite create_task_eq. apply Hconv.
  - destruct (Sql.select_by_id id file) as [old|] eqn:Es.
    + rewrite (replace_task_found clock file id replaced old Es). apply Hconv.
    + rewrite (replace_task_missing clock file id replaced Es). apply Habs.
  - destruct (Sql.select_by_id id file) as [old|] eqn:Es.
    + rewrite (set_task_completion_found clock file id completed old Es). simpl.
      destruct (row_to_task_cases
                  (Sql.set_completed (int_of_bool completed) (_utc_now_iso clock) old))
        as [-> | ->]; discriminate.
    + rewrite (set_task_completion_missing clock file id completed Es). apply Habs.
  - destruct (Sql.select_by_id id file) as [old|] eqn:Es.
    + rewrite (delete_task_found file id old Es). discriminate.
    + rewrite (delete_task_missing file id Es). apply Habs.
Qed.

End Rejection.

(** X9.  Bodies whose members have the expected JSON types.  A create is
    answered with the request-validation error, the store untouched, when the
    title is missing, empty or longer than 200 characters, or the description
    is longer than 2000; a replace in those cases and, besides, when
    [completed] is missing or the path id is below 1.  A body with a title of
    1 to 200 characters and a description that is absent, null or at most
    2000 characters long is passed on: [create_task] is called with that
    title, that description (null when absent) and the flag (false when
    absent), and, when [completed] is there and the path id is at least 1,
    [replace_task] is called with the three values; the answer is then not
    the request-validation error. *)
Theorem bodies_rejected_or_passed_on clock id body file :
  (Body.title body = None \/
   (exists t, Body.title body = Some t /\
              (String.length t = 0 \/ 200 < String.length t)%nat) \/
   (exists d, Body.description body = Some (Some d) /\
              (2000 < String.length d)%nat) ->
   post_tasks clock body file = (Raise RequestValidationError, file)) /\
  (id < 1 \/ Body.title body = None \/ Body.completed body = None \/
   (exists t, Body.title body = Some t /\
              (String.length t = 0 \/ 200 < String.length t)%nat) \/
   (exists d, Body.description body = Some (Some d) /\
              (2000 < String.length d)%nat) ->
   put_task clock id body file = (Raise RequestValidationError, file)) /\
  (forall t,
     Body.title body = Some t ->
     (1 <= String.length t <= 200)%nat ->
     (forall d, Body.description body = Some (Some d) ->
                (String.length d <= 2000)%nat) ->
     let d := match Body.description body with Some d => d | None => None end in
     let c0 := match Body.completed body with Some c => c | None => false end in
     post_tasks clock body file = create_task clock (TaskCreate.mk t d c0) file /\
     fst (post_tasks clock body file) <> Raise RequestValidationError /\
     forall c,
       Body.completed body = Some c -> 1 <= id ->
       put_task clock id body file = replace_task clock id (TaskUpdate.mk t d c) file /\
       fst (put_task clock id body file) <> Raise RequestValidationError).
Proof.
  split; [|split].
  - intros Hbad. apply create_validate_none in Hbad.
    unfold post_tasks. now rewrite Hbad.
  - intros [Hlt|Hbad].
    + unfold put_task. now rewrite (proj2 (Z.leb_gt 1 id) Hlt).
    + apply update_validate_none in Hbad. unfold put_task. rewrite Hbad.
      now destruct (1 <=? id).
  - intros t Ht Hlen Hd d c0.
    assert (Hok : TaskBase.title_ok t && TaskBase.description_ok d = true).
    { apply andb_true_iff. split; [now apply title_ok_iff|].
      apply description_ok_iff. intros x Hx. apply Hd. subst d.
      destruct (Body.description body) as [[x'|]|]; congruence. }
    assert (Hpost : post_tasks clock body file =
                    create_task clock (TaskCreate.mk t d c0) file).
    { unfold post_tasks, TaskCreate.validate. rewrite Ht. fold d c0.
      now rewrite Hok. }
    split; [exact Hpost|]. split.
    + rewrite Hpost.
      exact (proj1 (handlers_never_422 clock id (TaskCreate.mk t d c0)
                      (TaskUpdate.mk t d c0) c0 file)).
    + intros c Hc Hge.
      assert (Hput : put_task clock id body file =
                     replace_task clock id (TaskUpdate.mk t d c) file).
      { unfold put_task, TaskUpdate.validate.
        rewrite (proj2 (Z.leb_le 1 id) Hge), Ht, Hc. fold d. now rewrite Hok. }
      split; [exact Hput|]. rewrite Hput.
      exact (proj1 (proj2 (handlers_never_422 clock id (TaskCreate.mk t d c)
                             (TaskUpdate.mk t d c) c file))).
Qed.

Lemma bodies_rejected_or_passed_on_witness :
  put_task 0 1 (Body.mk (Some "ok"%string) None None) (_init_db None) =
    (Raise RequestValidationError, _init_db None) /\
  post_tasks 0 (Body.mk (Some "ok"%string) None None) (_init_db None) =
    create_task 0 (TaskCreate.mk "ok" None false) (_init_db None) /\
  put_task 0 1 (Body.mk (Some "ok"%string) (Some None) (Some true)) (_init_db None) =
    replace_task 0 1 (TaskUpdate.mk "ok" None true) (_init_db None).
Proof.
  destruct (bodies_rejected_or_passed_on 0 1
              (Body.mk (Some "ok"%string) None None) (_init_db None))
    as (_ & Hput & Hpass).
  destruct (bodies_rejected_or_passed_on 0 1
              (Body.mk (Some "ok"%string) (Some None) (Some true)) (_init_db None))
    as (_ & _ & Hpass').
  split; [|split].
  - apply Hput. right. right. left. reflexivity.
  - apply (Hpass "ok"%string);
      [reflexivity | simpl; lia | intros d Hd; discriminate Hd].
  - destruct (Hpass' "ok"%string) as (_ & _ & H);
      [reflexivity | simpl; lia | intros d Hd; discriminate Hd |].
    apply (H true); [reflexivity | lia].
Defined.

(** X10.  The two routes with no model body, for a [completed] member that is
    a JSON boolean when present.  A completion change is answered with the
    request-validation error, the store untouched, when the path id is below
    1 or the body has no [completed] member; a delete when the path id is
    below 1.  With a path id of at least 1 (and the member there) the request
    is passed on to [set_task_completion], respectively [delete_task], and is
    not answered with the request-validation error. *)
Theorem path_guard_rejects_or_passes_on clock id body file :
  (id < 1 \/ Body.completed body = None ->
   patch_task_complete clock id body file = (Raise RequestValidationError, file)) /\
  (id < 1 ->
   delete_task_route id file = (Raise RequestValidationError, file)) /\
  (forall c,
     1 <= id -> Body.completed body = Some c ->
     patch_task_complete clock id body file = set_task_completion clock id c file /\
     fst (patch_task_complete clock id body file) <> Raise RequestValidationError) /\
  (1 <= id ->
   delete_task_route id file = delete_task id file /\
   fst (delete_task_route id file) <> Raise RequestValidationError).
Proof.
  unfold patch_task_complete, delete_task_route.
  split; [|split; [|split]].
  - intros [Hlt|Hnone].
    + now rewrite (proj2 (Z.leb_gt 1 id) Hlt).
    + rewrite Hnone. now destruct (1 <=? id).
  - intros Hlt. now rewrite (proj2 (Z.leb_gt 1 id) Hlt).
  - intros c Hge Hc. rewrite (proj2 (Z.leb_le 1 id) Hge), Hc.
    split; [reflexivity|].
    exact (proj1 (proj2 (proj2 (handlers_never_422 clock id
             (TaskCreate.mk "" None true) (TaskUpdate.mk "" None true) c file)))).
  - intros Hge. rewrite (proj2 (Z.leb_le 1 id) Hge). split; [reflexivity|].
    exact (proj2 (proj2 (proj2 (handlers_never_422 clock id
             (TaskCreate.mk "" None true) (TaskUpdate.mk "" None true) true file)))).
Qed.

Lemma path_guard_rejects_or_passes_on_witness :
  patch_task_complete 0 0 (Body.mk None None (Some true)) (_init_db None) =
    (Raise RequestValidationError, _init_db None) /\
  delete_task_route 0 (_init_db None) =
    (Raise RequestValidationError, _init_db None) /\
  fst (delete_task_route 5 (_init_db None)) <> Raise RequestValidationError.
Proof.
  destruct (path_guard_rejects_or_passes_on 0 0 (Body.mk None None (Some true))
              (_init_db None)) as (Hpatch & Hdel & _).
  destruct (path_guard_rejects_or_passes_on 0 5 (Body.mk None None (Some true))
              (_init_db None)) as (_ & _ & _ & Hpass).
  split; [|split].
  - apply Hpatch. left. lia.
  - apply Hdel. lia.
  - apply Hpass. lia.
Defined.

(** ** Writes to the same id, one after the other *)

Section Overwrite.

Lemma rewrite_at_twice i g1 g2 l :
  (forall r, Row.id (g1 r) = Row.id r) ->
  (forall r, g2 (g1 r) = g2 r) ->
  rewrite_at i g2 (rewrite_at i g1 l) = rewrite_at i g2 l.
Proof.
  intros Hid Hg. unfold rewrite_at. rewrite map_map. apply map_ext.
  intros r. destruct (Sql.has_id i r) eqn:E; [|now rewrite E].
  assert (E' : Sql.has_id i (g1 r) = true)
    by (apply has_id_true; rewrite Hid; now apply has_id_true).
  now rewrite E', Hg.
Qed.

Lemma select_rewrite_at i g db old :
  (forall r, Row.id (g r) = Row.id r) ->
  Sql.select_by_id i db = Some old ->
  Sql.select_by_id i {| tasks := rewrite_at i g (tasks db);
                        sqlite_sequence := sqlite_sequence db |} = Some (g old).
Proof.
  intros Hg Hsel. exact (find_rewritten db i g old Hsel Hg).
Qed.

End Overwrite.

(** X11.  For any store and any id, a replace wipes out what an earlier
    replace or completion change did to the task: the answer and the store
    are those of the replace applied directly.  Likewise a completion change
    after a completion change is as if only the second had happened. *)
Theorem last_write_wins c1 c2 id p1 p2 b1 b2 file :
  replace_task c2 id p2 (snd (replace_task c1 id p1 file)) =
    replace_task c2 id p2 file /\
  replace_task c2 id p2 (snd (set_task_completion c1 id b1 file)) =
    replace_task c2 id p2 file /\
  set_task_completion c2 id b2 (snd (set_task_completion c1 id b1 file)) =
    set_task_completion c2 id b2 file.
Proof.
  destruct (Sql.select_by_id id file) as [old|] eqn:Es.
  - set (g1 := Sql.set_fields (TaskUpdate.title p1) (TaskUpdate.description p1)
                 (int_of_bool (TaskUpdate.completed p1)) (_utc_now_iso c1)).
    set (h1 := Sql.set_completed (int_of_bool b1) (_utc_now_iso c1)).
    rewrite (replace_task_found c1 file id p1 old Es).
    rewrite (set_task_completion_found c1 file id b1 old Es).
    fold g1 h1. simpl snd.
    pose proof (select_rewrite_at id g1 file old (fun _ => eq_refl) Es) as Eg.
    pose proof (select_rewrite_at id h1 file old (fun _ => eq_refl) Es) as Eh.
    rewrite (replace_task_found c2 _ id p2 _ Eg).
    rewrite (replace_task_found c2 _ id p2 _ Eh).
    rewrite (set_task_completion_found c2 _ id b2 _ Eh).
    rewrite (replace_task_found c2 file id p2 old Es).
    rewrite (set_task_completion_found c2 file id b2 old Es).
    simpl tasks. simpl sqlite_sequence.
    rewrite !rewrite_at_twice by reflexivity.
    repeat split.
  - rewrite (replace_task_missing c1 file id p1 Es).
    rewrite (set_task_completion_missing c1 file id b1 Es).
    repeat split.
Qed.

(** ** The values the handlers store *)

Section Columns.

Lemma utc_now_iso_whole c : _utc_now_iso c mod 1000000 = 0.
Proof.
  unfold _utc_now_iso.
  rewrite Zminus_mod, Zmod_mod, Z.sub_diag. reflexivity.
Qed.

Lemma int_of_bool_flag b : int_of_bool b = 0 \/ int_of_bool b = 1.
Proof. destruct b; simpl; auto. Qed.

Lemma serve_wf req db :
  Forall row_wf (tasks db) -> Forall row_wf (tasks (snd (serve req db))).
Proof.
  intros Hwf.
  assert (Hrw : forall i g,
    (forall r, row_wf r -> row_wf (g r)) ->
    Forall row_wf (rewrite_at i g (tasks db))).
  { intros i g Hg. unfold rewrite_at. apply Forall_forall. intros x Hx.
    apply in_map_iff in Hx. destruct Hx as (r & <- & Hr).
    rewrite Forall_forall in Hwf. specialize (Hwf r Hr).
    destruct (Sql.has_id i r); auto. }
  destruct req as [|clock body|clock id body|clock id body|id]; simpl.
  - rewrite list_tasks_eq. exact Hwf.
  - unfold post_tasks. destruct (TaskCreate.validate body) as [p|]; [|exact Hwf].
    rewrite create_task_eq. simpl. apply Forall_app. split; [exact Hwf|].
    constructor; [|constructor]. unfold row_wf. simpl.
    split; [apply int_of_bool_flag | split; apply utc_now_iso_whole].
  - unfold put_task. destruct (1 <=? id); [|exact Hwf].
    destruct (TaskUpdate.validate body) as [p|]; [|exact Hwf].
    destruct (Sql.select_by_id id db) as [old|] eqn:Es.
    + rewrite (replace_task_found clock db id p old Es). simpl.
      apply Hrw. intros r (_ & Hc & _). unfold row_wf. simpl.
      split; [apply int_of_bool_flag | split; [exact Hc | apply utc_now_iso_whole]].
    + rewrite (replace_task_missing clock db id p Es). exact Hwf.
  - unfold patch_task_complete. destruct (1 <=? id); [|exact Hwf].
    destruct (Body.completed body) as [c|]; [|exact Hwf].
    destruct (Sql.select_by_id id db) as [old|] eqn:Es.
    + rewrite (set_task_completion_found clock db id c old Es). simpl.
      apply Hrw. intros r (_ & Hc & _). unfold row_wf. simpl.
      split; [apply int_of_bool_flag | split; [exact Hc | apply utc_now_iso_whole]].
    + rewrite (set_task_completion_missing clock db id c Es). exact Hwf.
  - unfold delete_task_route. destruct (1 <=? id); [|exact Hwf].
    destruct (Sql.select_by_id id db) as [old|] eqn:Es.
    + rewrite (delete_task_found db id old Es). simpl.
      apply Forall_forall. intros x Hx. apply filter_In in Hx.
      rewrite Forall_forall in Hwf. apply Hwf. tauto.
    + rewrite (delete_task_missing db id Es). exact Hwf.
Qed.

Lemma run_wf reqs : forall db,
  Forall row_wf (tasks db) -> Forall row_wf (tasks (snd (run reqs db))).
Proof.
  induction reqs as [|req rest IH]; intros db Hwf; [exact Hwf|].
  rewrite run_cons. simpl. apply IH. now apply serve_wf.
Qed.

End Columns.

(** X12.  In a store the service can be in, every row holds what the handlers
    write and nothing else: [completed] is 0 or 1, both timestamps are whole
    seconds, and the title and description meet the length limits; the flag
    of the row's representation is true exactly when the column is 1. *)
Theorem stored_rows_well_formed file r :
  reachable file ->
  In r (tasks file) ->
  (Row.completed r = 0 \/ Row.completed r = 1) /\
  Row.created_at r mod 1000000 = 0 /\
  Row.updated_at r mod 1000000 = 0 /\
  (1 <= String.length (Row.title r) <= 200)%nat /\
  (forall d, Row.description r = Some d -> (String.length d <= 2000)%nat) /\
  _row_to_task r = Return (task_of_row r) /\
  (TaskOut.completed (task_of_row r) = true <-> Row.completed r = 1).
Proof.
  intros Hreach Hin. pose proof (reachable_store_ok file Hreach) as Hok.
  destruct Hreach as [reqs <-].
  pose proof (run_wf reqs (_init_db None) (Forall_nil _)) as Hwf.
  rewrite Forall_forall in Hwf. destruct (Hwf r Hin) as (Hc & Hcr & Hup).
  pose proof (rows_valid _ Hok) as Hall. rewrite Forall_forall in Hall.
  destruct (Hall r Hin) as [Ht Hd].
  repeat split; try assumption.
  - now apply title_ok_iff.
  - now apply title_ok_iff.
  - now apply description_ok_iff.
  - apply row_to_task_ok. split; assumption.
  - simpl. destruct Hc as [-> | ->]; simpl; [discriminate | reflexivity].
  - simpl. intros ->. reflexivity.
Qed.

Lemma stored_rows_well_formed_witness :
  _row_to_task (Row.mk 2 "Buy milk" None 0 2000000 2000000) =
  Return (TaskOut.mk 2 "Buy milk" None false 2000000 2000000).
Proof.
  apply (stored_rows_well_formed (snd (run three_tasks (_init_db None)))
           (Row.mk 2 "Buy milk" None 0 2000000 2000000)).
  - exists three_tasks. reflexivity.
  - vm_compute. right. left. reflexivity.
Defined.

(** ** Rows the service did not write *)

Section Foreign.

Lemma rows_to_tasks_return rows ts :
  rows_to_tasks rows = Return ts -> Forall row_ok rows.
Proof.
  revert ts. induction rows as [|r rows IH]; intros ts; simpl; [constructor|].
  unfold _row_to_task, TaskOut.make.
  destruct (TaskBase.title_ok (Row.title r) &&
            TaskBase.description_ok (Row.description r)) eqn:E; [|discriminate].
  destruct (rows_to_tasks rows) as [ts'|]; [|discriminate].
  intros _. constructor; [|now apply (IH ts')].
  now apply andb_true_iff in E.
Qed.

Lemma rows_to_tasks_raise rows e :
  rows_to_tasks rows = Raise e -> e = ValidationError.
Proof.
  induction rows as [|r rows IH]; simpl; [discriminate|].
  destruct (row_to_task_cases r) as [-> | ->].
  - destruct (rows_to_tasks rows); [discriminate|]. intros [= <-]. now apply IH.
  - now intros [= <-].
Qed.

End Foreign.

(** X13.  [_init_db] keeps a table it finds.  If such a table holds a row
    whose title or description breaks the length limits (a row some other
    program wrote), every listing fails as a whole with the model's
    validation error, however many good rows there are; the store is not
    changed by the attempt. *)
Theorem invalid_row_fails_listing file r :
  In r (tasks file) ->
  TaskBase.title_ok (Row.title r) = false \/
  TaskBase.description_ok (Row.description r) = false ->
  list_tasks (_init_db (Some file)) = (Raise ValidationError, file).
Proof.
  intros Hin Hbad. simpl. rewrite list_tasks_eq.
  destruct (rows_to_tasks (Sql.select_all_desc file)) as [ts|e] eqn:E.
  - exfalso. apply rows_to_tasks_return in E. rewrite Forall_forall in E.
    destruct (E r) as [Ht Hd].
    + eapply Permutation_in; [symmetry; apply select_all_desc_perm | exact Hin].
    + destruct Hbad; congruence.
  - now rewrite (rows_to_tasks_raise _ e E).
Qed.

Lemma invalid_row_fails_listing_witness :
  list_tasks (_init_db (Some legacy_db)) = (Raise ValidationError, legacy_db).
Proof.
  apply (invalid_row_fails_listing legacy_db (Row.mk 1 "" None 0 0 0)).
  - left. reflexivity.
  - left. reflexivity.
Defined.

(** X14.  On such a row a completion change raises the validation error only
    after its UPDATE was committed: the caller gets an error, yet the row has
    the new flag and the new [updated_at].  (With rows the service wrote
    itself this does not arise, see X5.) *)
Theorem completion_change_on_invalid_row clock id completed file old :
  Sql.select_by_id id file = Some old ->
  TaskBase.title_ok (Row.title old) = false ->
  exists file',
    set_task_completion clock id completed file = (Raise ValidationError, file') /\
    Sql.select_by_id id file' =
      Some (Row.mk (Row.id old) (Row.title old) (Row.description old)
                   (int_of_bool completed) (Row.created_at old)
                   (_utc_now_iso clock)).
Proof.
  intros Hsel Hbad.
  set (g := Sql.set_completed (int_of_bool completed) (_utc_now_iso clock)).
  exists {| tasks := rewrite_at id g (tasks file);
            sqlite_sequence := sqlite_sequence file |}.
  rewrite (set_task_completion_found clock file id completed old Hsel). fold g.
  split.
  - unfold _row_to_task, TaskOut.make, g. simpl. now rewrite Hbad.
  - exact (select_rewrite_at id g file old (fun _ => eq_refl) Hsel).
Qed.

Lemma completion_change_on_invalid_row_witness :
  exists file',
    set_task_completion 5000000 1 true legacy_db = (Raise ValidationError, file') /\
    Sql.select_by_id 1 file' = Some (Row.mk 1 "" None 1 0 5000000).
Proof.
  apply (completion_change_on_invalid_row 5000000 1 true legacy_db
           (Row.mk 1 "" None 0 0 0)).
  - reflexivity.
  - reflexivity.
Defined.

(** ** Timestamps *)

(** X15.  [_utc_now_iso] cuts the reading down to the second it falls in: the
    result is a whole second, not after the reading and less than a second
    before it; a reading that is a whole second is kept; the result grows
    with the reading; and two readings get the same timestamp exactly when
    they fall in the same second. *)
Theorem utc_now_iso_truncates c c' :
  _utc_now_iso c mod 1000000 = 0 /\
  _utc_now_iso c <= c < _utc_now_iso c + 1000000 /\
  (c mod 1000000 = 0 -> _utc_now_iso c = c) /\
  (c <= c' -> _utc_now_iso c <= _utc_now_iso c') /\
  (_utc_now_iso c = _utc_now_iso c' <-> c / 1000000 = c' / 1000000).
Proof.
  pose proof (Z.mod_pos_bound c 1000000 ltac:(lia)) as Hb.
  pose proof (Z.div_mod c 1000000 ltac:(lia)) as E.
  pose proof (Z.div_mod c' 1000000 ltac:(lia)) as E'.
  split; [apply utc_now_iso_whole|].
  split; [unfold _utc_now_iso; lia|].
  split; [unfold _utc_now_iso; lia|].
  split; [apply utc_now_iso_mono|].
  unfold _utc_now_iso. lia.
Qed.

Section Updates.

Lemma serve_updated req db hi r' :
  stamped hi db ->
  Forall (fun c => hi <= _utc_now_iso c) (clock_of req) ->
  In r' (tasks (snd (serve req db))) ->
  (exists r, In r (tasks db) /\ Row.id r = Row.id r' /\
             Row.updated_at r <= Row.updated_at r') \/
  sqlite_sequence db < Row.id r'.
Proof.
  intros Hs Hc.
  assert (Hsame : In r' (tasks db) ->
    (exists r, In r (tasks db) /\ Row.id r = Row.id r' /\
               Row.updated_at r <= Row.updated_at r') \/
    sqlite_sequence db < Row.id r')
    by (intros H; left; exists r'; repeat split; [assumption | lia]).
  assert (Hrw : forall i g clock,
    hi <= _utc_now_iso clock ->
    (forall r, Row.id (g r) = Row.id r /\ Row.updated_at (g r) = _utc_now_iso clock) ->
    In r' (rewrite_at i g (tasks db)) ->
    (exists r, In r (tasks db) /\ Row.id r = Row.id r' /\
               Row.updated_at r <= Row.updated_at r') \/
    sqlite_sequence db < Row.id r').
  { intros i g clock Hle Hg Hin. left. unfold rewrite_at in Hin.
    apply in_map_iff in Hin. destruct Hin as (r & <- & Hr). exists r.
    split; [exact Hr|]. specialize (Hs r Hr).
    destruct (Sql.has_id i r); [|split; [reflexivity | lia]].
    destruct (Hg r) as [-> ->]. split; [reflexivity | lia]. }
  destruct req as [|clock body|clock id body|clock id body|id]; simpl in *.
  - rewrite list_tasks_eq. exact Hsame.
  - unfold post_tasks. destruct (TaskCreate.validate body) as [p|]; [|exact Hsame].
    rewrite create_task_eq. simpl. intros Hin. apply in_app_or in Hin.
    destruct Hin as [Hin|[<-|[]]]; [now apply Hsame|].
    right. simpl. apply new_rowid_gt_seq.
  - inversion Hc as [|? ? Hle _]; subst.
    unfold put_task. destruct (1 <=? id); [|exact Hsame].
    destruct (TaskUpdate.validate body) as [p|]; [|exact Hsame].
    destruct (Sql.select_by_id id db) as [old|] eqn:Es.
    + rewrite (replace_task_found clock db id p old Es). simpl.
      apply (Hrw _ _ clock Hle). intros r. split; reflexivity.
    + rewrite (replace_task_missing clock db id p Es). exact Hsame.
  - inversion Hc as [|? ? Hle _]; subst.
    unfold patch_task_complete. destruct (1 <=? id); [|exact Hsame].
    destruct (Body.completed body) as [c|]; [|exact Hsame].
    destruct (Sql.select_by_id id db) as [old|] eqn:Es.
    + rewrite (set_task_completion_found clock db id c old Es). simpl.
      apply (Hrw _ _ clock Hle). intros r. split; reflexivity.
    + rewrite (set_task_completion_missing clock db id c Es). exact Hsame.
  - unfold delete_task_route. destruct (1 <=? id); [|exact Hsame].
    destruct (Sql.select_by_id id db) as [old|] eqn:Es.
    + rewrite (delete_task_found db id old Es). simpl. intros Hin.
      apply filter_In in Hin. apply Hsame. tauto.
    + rewrite (delete_task_missing db id Es). exact Hsame.
Qed.

Lemma sorted_drop_prefix (l1 l2 : list Z) :
  StronglySorted Z.le (l1 ++ l2) -> StronglySorted Z.le l2.
Proof.
  induction l1 as [|c l1 IH]; simpl; [trivial|].
  intros H. inversion H; subst. now apply IH.
Qed.

Lemma run_stamped_upto reqs : forall db hi c',
  stamped hi db ->
  StronglySorted Z.le (clocks reqs ++ [c']) ->
  Forall (fun c => hi <= _utc_now_iso c) (clocks reqs ++ [c']) ->
  stamped (_utc_now_iso c') (snd (run reqs db)).
Proof.
  induction reqs as [|req rest IH]; intros db hi c' Hs Hsorted Hall.
  - simpl in *. inversion Hall; subst. now apply (stamped_weaken hi).
  - rewrite run_cons. simpl snd. unfold clocks in *. simpl flat_map in *.
    rewrite <- app_assoc in Hsorted, Hall.
    apply Forall_app in Hall. destruct Hall as [Hreq Hrest].
    pose proof (serve_stamped req db hi Hs Hreq) as Hstep.
    apply (IH _ _ c' Hstep).
    + exact (sorted_drop_prefix _ _ Hsorted).
    + destruct (clock_of req) as [|c l] eqn:Ec; [exact Hrest|].
      simpl in Hsorted. inversion Hsorted as [|? ? _ Hc]; subst.
      apply Forall_app in Hc. destruct Hc as [_ Hc].
      eapply Forall_impl; [|exact Hc]. simpl.
      intros c0 Hc0. now apply utc_now_iso_mono.
Qed.

Lemma run_stamped_fresh reqs :
  StronglySorted Z.le (clocks reqs) ->
  exists hi, stamped hi (snd (run reqs (_init_db None))).
Proof.
  intros Hsorted. destruct (clocks reqs) as [|c0 cs] eqn:Ec.
  - apply (run_stamped reqs (_init_db None) 0); rewrite ?Ec;
      [intros x [] | constructor | constructor].
  - apply (run_stamped reqs (_init_db None) (_utc_now_iso c0)); rewrite ?Ec.
    + intros x [].
    + exact Hsorted.
    + inversion Hsorted as [|? ? _ Hc]; subst.
      constructor; [lia|]. eapply Forall_impl; [|exact Hc].
      simpl. intros c' Hcc'. now apply utc_now_iso_mono.
Qed.

End Updates.

(** X16.  When the clock readings taken along a request sequence never
    decrease, no request moves a task's [updated_at] back: a row that carries
    the id of a stored task after one more request has an [updated_at] at
    least as late as the task had. *)
Theorem updated_at_never_decreases reqs req r r' :
  StronglySorted Z.le (clocks (reqs ++ [req])) ->
  In r (tasks (snd (run reqs (_init_db None)))) ->
  In r' (tasks (snd (serve req (snd (run reqs (_init_db None)))))) ->
  Row.id r' = Row.id r ->
  Row.updated_at r <= Row.updated_at r'.
Proof.
  intros Hsorted Hr Hr' Hid.
  set (file := snd (run reqs (_init_db None))) in *.
  assert (Hok : store_ok file) by (apply store_ok_run, store_ok_init).
  assert (Hconcl : forall hi,
    stamped hi file -> Forall (fun c => hi <= _utc_now_iso c) (clock_of req) ->
    Row.updated_at r <= Row.updated_at r').
  { intros hi Hs Hc.
    destruct (serve_updated req file hi r' Hs Hc Hr')
      as [(r0 & Hr0 & Hid0 & Hle)|Hgt].
    - pose proof (same_id_same_row file r r0 (ids_unique file Hok) Hr Hr0
                    ltac:(congruence)) as E.
      subst r0. exact Hle.
    - pose proof (ids_in_range file Hok r Hr). lia. }
  unfold clocks in Hsorted. rewrite flat_map_app in Hsorted. simpl in Hsorted.
  rewrite app_nil_r in Hsorted. fold (clocks reqs) in Hsorted.
  destruct (clock_of req) as [|c' l] eqn:Ec.
  - rewrite app_nil_r in Hsorted.
    destruct (run_stamped_fresh reqs Hsorted) as (hi & Hs).
    apply (Hconcl hi Hs). constructor.
  - assert (l = []) as -> by (destruct req; simpl in Ec; congruence).
    set (h := hd c' (clocks reqs ++ [c'])).
    assert (Hh : Forall (fun c => _utc_now_iso h <= _utc_now_iso c)
                        (clocks reqs ++ [c'])).
    { subst h. destruct (clocks reqs ++ [c']) as [|c0 cs] eqn:E0; [constructor|].
      simpl. inversion Hsorted as [|? ? _ Hc]; subst.
      constructor; [lia|]. eapply Forall_impl; [|exact Hc].
      simpl. intros c1 Hc1. now apply utc_now_iso_mono. }
    apply (Hconcl (_utc_now_iso c')).
    + apply (run_stamped_upto reqs (_init_db None) (_utc_now_iso h) c');
        [intros x [] | exact Hsorted | exact Hh].
    + constructor; [lia | constructor].
Qed.

Lemma updated_at_never_decreases_witness :
  Row.updated_at (Row.mk 1 "Buy milk" None 0 1000000 1000000) <=
  Row.updated_at (Row.mk 1 "Buy milk" None 1 1000000 5000000).
Proof.
  apply (updated_at_never_decreases three_tasks
           (PATCH_task_complete 5999999 1 (Body.mk None None (Some true)))).
  - vm_compute. repeat constructor; discriminate.
  - vm_compute. left. reflexivity.
  - vm_compute. left. reflexivity.
  - reflexivity.
Defined.

(** ** Requests addressed to different ids *)

Section Independence.

Lemma snd_tagged {A B C} (f : A -> B) (x : A * C) :
  snd (let (o, c) := x in (f o, c)) = snd x.
Proof. now destruct x. Qed.

Lemma fst_tagged {A B C} (f : A -> B) (x : A * C) :
  fst (let (o, c) := x in (f o, c)) = f (fst x).
Proof. now destruct x. Qed.

Lemma db_eta db : {| tasks := tasks db; sqlite_sequence := sqlite_sequence db |} = db.
Proof. now destruct db. Qed.

Lemma rewrite_at_absent i g l :
  (forall r, In r l -> Row.id r <> i) -> rewrite_at i g l = l.
Proof.
  intros H. unfold rewrite_at. rewrite <- (map_id l) at 2.
  apply map_ext_in. intros r Hr.
  now rewrite (proj2 (has_id_false i r) (H r Hr)).
Qed.

Lemma replace_task_store clock i p db :
  Sql.fits_int64 i = true ->
  snd (replace_task clock i p db) =
  Sql.update (TaskUpdate.title p) (TaskUpdate.description p)
             (int_of_bool (TaskUpdate.completed p)) (_utc_now_iso clock) i db.
Proof.
  intros Hfit. destruct (Sql.select_by_id i db) as [old|] eqn:Es.
  - now rewrite (replace_task_found clock db i p old Es).
  - rewrite (replace_task_missing clock db i p Es). simpl. unfold Sql.update.
    change (map _ (tasks db)) with
      (rewrite_at i (Sql.set_fields (TaskUpdate.title p) (TaskUpdate.description p)
                       (int_of_bool (TaskUpdate.completed p)) (_utc_now_iso clock))
                  (tasks db)).
    rewrite rewrite_at_absent by (now apply (select_none i db Hfit)).
    symmetry. apply db_eta.
Qed.

Lemma set_task_completion_store clock i c db :
  Sql.fits_int64 i = true ->
  snd (set_task_completion clock i c db) =
  Sql.update_completed (int_of_bool c) (_utc_now_iso clock) i db.
Proof.
  intros Hfit. destruct (Sql.select_by_id i db) as [old|] eqn:Es.
  - now rewrite (set_task_completion_found clock db i c old Es).
  - rewrite (set_task_completion_missing clock db i c Es). simpl.
    unfold Sql.update_completed.
    change (map _ (tasks db)) with
      (rewrite_at i (Sql.set_completed (int_of_bool c) (_utc_now_iso clock))
                  (tasks db)).
    rewrite rewrite_at_absent by (now apply (select_none i db Hfit)).
    symmetry. apply db_eta.
Qed.

Lemma delete_task_store i db :
  Sql.fits_int64 i = true -> snd (delete_task i db) = Sql.delete i db.
Proof.
  intros Hfit. destruct (Sql.select_by_id i db) as [old|] eqn:Es.
  - now rewrite (delete_task_found db i old Es).
  - rewrite (delete_task_missing db i Es). simpl. unfold Sql.delete.
    rewrite filter_all.
    + symmetry. apply db_eta.
    + intros r Hr. apply negb_true_iff, has_id_false.
      exact (proj1 (select_none i db Hfit) Es r Hr).
Qed.

(** The store a request with a path id leaves, whatever store it gets: the
    same store, the store with the rows of that id rewritten, or the store
    without them. *)
Lemma serve_shape req i :
  target req = Some i ->
  (forall db, snd (serve req db) = db) \/
  (exists g, (forall r, Row.id (g r) = Row.id r) /\
             forall db, snd (serve req db) =
                        {| tasks := rewrite_at i g (tasks db);
                           sqlite_sequence := sqlite_sequence db |}) \/
  (forall db, snd (serve req db) = Sql.delete i db).
Proof.
  destruct req as [|clock body|clock id body|clock id body|id]; simpl;
    try discriminate; intros [= <-].
  - destruct (1 <=? id) eqn:G;
      [|left; intros db; rewrite snd_tagged; unfold put_task; now rewrite G].
    destruct (TaskUpdate.validate body) as [p|] eqn:V;
      [|left; intros db; rewrite snd_tagged; unfold put_task; now rewrite G, V].
    destruct (Sql.fits_int64 id) eqn:Hfit.
    + right. left.
      exists (Sql.set_fields (TaskUpdate.title p) (TaskUpdate.description p)
                (int_of_bool (TaskUpdate.completed p)) (_utc_now_iso clock)).
      split; [reflexivity|].
      intros db. rewrite snd_tagged. unfold put_task. rewrite G, V.
      now apply replace_task_store.
    + left. intros db. rewrite snd_tagged. unfold put_task. rewrite G, V.
      now rewrite (replace_task_missing clock db id p (select_unbound id db Hfit)).
  - destruct (1 <=? id) eqn:G;
      [|left; intros db; rewrite snd_tagged; unfold patch_task_complete; now rewrite G].
    destruct (Body.completed body) as [c|] eqn:V;
      [|left; intros db; rewrite snd_tagged; unfold patch_task_complete;
        now rewrite G, V].
    destruct (Sql.fits_int64 id) eqn:Hfit.
    + right. left.
      exists (Sql.set_completed (int_of_bool c) (_utc_now_iso clock)).
      split; [reflexivity|].
      intros db. rewrite snd_tagged. unfold patch_task_complete. rewrite G, V.
      now apply set_task_completion_store.
    + left. intros db. rewrite snd_tagged. unfold patch_task_complete.
      rewrite G, V.
      now rewrite (set_task_completion_missing clock db id c
                     (select_unbound id db Hfit)).
  - destruct (1 <=? id) eqn:G;
      [|left; intros db; rewrite snd_tagged; unfold delete_task_route; now rewrite G].
    destruct (Sql.fits_int64 id) eqn:Hfit.
    + right. right. intros db. rewrite snd_tagged. unfold delete_task_route.
      rewrite G. now apply delete_task_store.
    + left. intros db. rewrite snd_tagged. unfold delete_task_route. rewrite G.
      now rewrite (delete_task_missing db id (select_unbound id db Hfit)).
Qed.

Lemma rewrite_at_comm i j g1 g2 l :
  i <> j ->
  (forall r, Row.id (g1 r) = Row.id r) -> (forall r, Row.id (g2 r) = Row.id r) ->
  rewrite_at j g2 (rewrite_at i g1 l) = rewrite_at i g1 (rewrite_at j g2 l).
Proof.
  intros Hij H1 H2. unfold rewrite_at. rewrite !map_map. apply map_ext.
  intros r.
  assert (P1 : forall k, Sql.has_id k (g1 r) = Sql.has_id k r)
    by (intros k; unfold Sql.has_id; now rewrite H1).
  assert (P2 : forall k, Sql.has_id k (g2 r) = Sql.has_id k r)
    by (intros k; unfold Sql.has_id; now rewrite H2).
  destruct (Sql.has_id i r) eqn:Ei; destruct (Sql.has_id j r) eqn:Ej;
    rewrite ?P1, ?P2, ?Ei, ?Ej; try reflexivity.
  apply has_id_true in Ei, Ej. congruence.
Qed.

Lemma delete_rewrite_comm i j g l :
  (forall r, Row.id (g r) = Row.id r) ->
  filter (fun r => negb (Sql.has_id i r)) (rewrite_at j g l) =
  rewrite_at j g (filter (fun r => negb (Sql.has_id i r)) l).
Proof.
  intros Hg. unfold rewrite_at. induction l as [|x l IH]; simpl; [reflexivity|].
  assert (E : Sql.has_id i (if Sql.has_id j x then g x else x) = Sql.has_id i x).
  { unfold Sql.has_id at 1 3. destruct (Sql.has_id j x); [now rewrite Hg | reflexivity]. }
  rewrite E. destruct (Sql.has_id i x); simpl; now rewrite IH.
Qed.

Lemma delete_delete_comm i j l :
  filter (fun r => negb (Sql.has_id j r)) (filter (fun r => negb (Sql.has_id i r)) l) =
  filter (fun r => negb (Sql.has_id i r)) (filter (fun r => negb (Sql.has_id j r)) l).
Proof.
  induction l as [|x l IH]; simpl; [reflexivity|].
  destruct (Sql.has_id i x) eqn:Ei, (Sql.has_id j x) eqn:Ej; simpl;
    rewrite ?Ei, ?Ej; simpl; now rewrite IH.
Qed.

(** A request with another path id does not change what is found for [j]. *)
Lemma serve_keeps_select req i j db :
  target req = Some i -> i <> j ->
  Sql.select_by_id j (snd (serve req db)) = Sql.select_by_id j db.
Proof.
  intros Ht Hij. destruct (serve_shape req i Ht) as [H|[(g & Hg & H)|H]];
    rewrite H; [reflexivity | |].
  - unfold Sql.select_by_id. destruct (Sql.fits_int64 j); [|reflexivity].
    unfold Sql.row_with_id. simpl. rewrite find_rewrite_at by exact Hg.
    destruct (find (Sql.has_id j) (tasks db)) as [r|] eqn:E; [|reflexivity].
    apply find_some in E. destruct E as [_ E]. apply has_id_true in E.
    now rewrite (proj2 (has_id_false i r)) by congruence.
  - rewrite select_after_delete.
    now rewrite (proj2 (Z.eqb_neq j i)) by congruence.
Qed.

(** The answer to a request with path id [j] depends on the store only
    through the row found for [j]. *)
Lemma serve_answer_by_select req j db db' :
  target req = Some j ->
  Sql.select_by_id j db' = Sql.select_by_id j db ->
  fst (serve req db') = fst (serve req db).
Proof.
  destruct req as [|clock body|clock id body|clock id body|id]; simpl;
    try discriminate; intros [= <-] Hsel.
  - unfold put_task. destruct (1 <=? id); [|reflexivity].
    destruct (TaskUpdate.validate body) as [p|]; [|reflexivity].
    destruct (Sql.select_by_id id db) as [old|] eqn:Es.
    + rewrite (replace_task_found clock db id p old Es).
      now rewrite (replace_task_found clock db' id p old Hsel).
    + rewrite (replace_task_missing clock db id p Es).
      now rewrite (replace_task_missing clock db' id p Hsel).
  - unfold patch_task_complete. destruct (1 <=? id); [|reflexivity].
    destruct (Body.completed body) as [c|]; [|reflexivity].
    destruct (Sql.select_by_id id db) as [old|] eqn:Es.
    + rewrite (set_task_completion_found clock db id c old Es).
      now rewrite (set_task_completion_found clock db' id c old Hsel).
    + rewrite (set_task_completion_missing clock db id c Es).
      now rewrite (set_task_completion_missing clock db' id c Hsel).
  - unfold delete_task_route. destruct (1 <=? id); [|reflexivity].
    destruct (Sql.select_by_id id db) as [old|] eqn:Es.
    + rewrite (delete_task_found db id old Es).
      now rewrite (delete_task_found db' id old Hsel).
    + rewrite (delete_task_missing db id Es).
      now rewrite (delete_task_missing db' id Hsel).
Qed.

End Independence.

(** X17.  Two requests among replace, completion change and delete that are
    addressed to different ids do not interfere, whatever the store: each is
    answered as if the other had not been served, and serving them in either
    order leaves the same store. *)
Theorem requests_on_different_ids_commute req1 req2 i j file :
  target req1 = Some i ->
  target req2 = Some j ->
  i <> j ->
  fst (serve req2 (snd (serve req1 file))) = fst (serve req2 file) /\
  fst (serve req1 (snd (serve req2 file))) = fst (serve req1 file) /\
  snd (serve req2 (snd (serve req1 file))) =
    snd (serve req1 (snd (serve req2 file))).
Proof.
  intros H1 H2 Hij. split; [|split].
  - apply (serve_answer_by_select req2 j); [exact H2|].
    now apply (serve_keeps_select req1 i j).
  - apply (serve_answer_by_select req1 i); [exact H1|].
    apply (serve_keeps_select req2 j i); [exact H2 | congruence].
  - destruct (serve_shape req1 i H1) as [E1|[(g1 & Hg1 & E1)|E1]];
      destruct (serve_shape req2 j H2) as [E2|[(g2 & Hg2 & E2)|E2]];
      rewrite ?E1, ?E2; try reflexivity; rewrite ?E1; try reflexivity;
      unfold Sql.delete; simpl; f_equal.
    + now apply rewrite_at_comm.
    + now apply delete_rewrite_comm.
    + symmetry. now apply delete_rewrite_comm.
    + apply delete_delete_comm.
Qed.

Lemma requests_on_different_ids_commute_witness :
  let file := snd (run three_tasks (_init_db None)) in
  snd (serve (DELETE_task 2)
         (snd (serve (PUT_task 9000000 1
                        (Body.mk (Some "Buy bread"%string) None (Some true))) file))) =
  snd (serve (PUT_task 9000000 1
                (Body.mk (Some "Buy bread"%string) None (Some true)))
         (snd (serve (DELETE_task 2) file))).
Proof.
  intros file.
  apply (requests_on_different_ids_commute
           (PUT_task 9000000 1 (Body.mk (Some "Buy bread"%string) None (Some true)))
           (DELETE_task 2) 1 2 file).
  - reflexivity.
  - reflexivity.
  - lia.
Defined.

(** ** Completion change against replace *)

(** X18.  In a store the service can be in, changing the completion of a
    stored task is the replace that resends the task's own title and
    description with the new flag: the same store results, and the answer is
    the replace's task inside the wrapper. *)
Theorem completion_change_is_replace_with_same_text clock id completed file old :
  reachable file ->
  Sql.select_by_id id file = Some old ->
  let resent := TaskUpdate.mk (Row.title old) (Row.description old) completed in
  set_task_completion clock id completed file =
  (match fst (replace_task clock id resent file) with
   | Return t => Return {| TaskCompleteResponse.task := t |}
   | Raise e => Raise e
   end,
   snd (replace_task clock id resent file)).
Proof.
  intros Hreach Hsel resent. pose proof (reachable_store_ok file Hreach) as Hok.
  rewrite (set_task_completion_found clock file id completed old Hsel).
  rewrite (replace_task_found clock file id resent old Hsel). simpl.
  f_equal. f_equal. unfold rewrite_at. apply map_ext_in. intros r Hr.
  destruct (Sql.has_id id r) eqn:E; [|reflexivity].
  apply has_id_true in E.
  pose proof (select_unique id file r (select_fits id file old Hsel)
                (ids_unique file Hok) Hr E) as Hsel'.
  assert (r = old) by congruence. subst r. reflexivity.
Qed.

Lemma completion_change_is_replace_with_same_text_witness :
  let file := snd (run three_tasks (_init_db None)) in
  set_task_completion 5000000 2 true file =
  (match fst (replace_task 5000000 2 (TaskUpdate.mk "Buy milk" None true) file) with
   | Return t => Return {| TaskCompleteResponse.task := t |}
   | Raise e => Raise e
   end,
   snd (replace_task 5000000 2 (TaskUpdate.mk "Buy milk" None true) file)).
Proof.
  intros file.
  apply (completion_change_is_replace_with_same_text 5000000 2 true file
           (Row.mk 2 "Buy milk" None 0 2000000 2000000)).
  - exists three_tasks. reflexivity.
  - reflexivity.
Defined.
